(** * Secure login system: credential hashing and brute-force lockout

    A shallow embedding of [Assignment-5/secure_login_system.py]
    (class [LoginSystem]) together with the properties its specification
    states about it.

    Conventions of the embedding.
    - A Python [str] is a [string]: a sequence of characters with code
      points below 256.  [len] is [String.length]; [encode('utf-8')] is
      [encode_utf8] (one byte below 128, two bytes from 128 on).
    - A Python [bytes] is a [list ascii].
    - A [datetime] is a number of microseconds ([Z]); so is a [timedelta].
    - The table [users] is a finite map from [username] (declared UNIQUE)
      to the remaining columns of the row.
    - Effects (database, clocks, the random source, the time spent in
      bcrypt key derivations) are threaded through a state-and-exception
      monad over a [world]. *)

From Stdlib Require Import ZArith NArith List String Ascii Bool Lia.
From stdpp Require Import base gmap strings list pretty.
Import ListNotations.

Open Scope Z_scope.

(** ** Bytes and strings *)

Abbreviation bytes := (list ascii).

Definition code (c : ascii) : N := N_of_ascii c.

(** [s.encode('utf-8')] for code points below 256. *)
Definition utf8_char (c : ascii) : bytes :=
  if (code c <? 128)%N then [c]
  else [ascii_of_N (192 + code c / 64); ascii_of_N (128 + code c mod 64)].

Fixpoint encode_utf8 (s : string) : bytes :=
  match s with
  | EmptyString => []
  | String c s' => utf8_char c ++ encode_utf8 s'
  end.

(** A bytes literal [b'...']. *)
Definition bytes_of (s : string) : bytes := list_ascii_of_string s.

Definition in_range (lo hi c : ascii) : bool :=
  ((code lo <=? code c) && (code c <=? code hi))%N.

(** [re.search(r'[...]', s)] for a character class given as a predicate. *)
Fixpoint re_search_class (cls : ascii -> bool) (s : string) : bool :=
  match s with
  | EmptyString => false
  | String c s' => cls c || re_search_class cls s'
  end.

(** [s.lower()].  Only A-Z change here; the remaining cased code points
    below 256 lower to code points at or above 128, which the ASCII
    patterns searched for below never contain. *)
Definition lower_char (c : ascii) : ascii :=
  if in_range "A" "Z" c then ascii_of_N (code c + 32) else c.

Fixpoint lower (s : string) : string :=
  match s with
  | EmptyString => EmptyString
  | String c s' => String (lower_char c) (lower s')
  end.

(** [pattern in s]. *)
Fixpoint str_contains (pattern s : string) : bool :=
  String.prefix pattern s ||
  match s with
  | EmptyString => false
  | String _ s' => str_contains pattern s'
  end.

(** ** Exceptions and the monad of effects *)

Inductive exn : Type :=
  | ValueError
  | IntegrityError.

Inductive result (A : Type) : Type :=
  | Ok (a : A)
  | Raise (e : exn).
Arguments Ok {A} a.
Arguments Raise {A} e.

Definition exn_eqb (e1 e2 : exn) : bool :=
  match e1, e2 with
  | ValueError, ValueError | IntegrityError, IntegrityError => true
  | _, _ => false
  end.

(** One row of [users], without its key and without the [id] that no
    statement of the program mentions.  [locked_until] holds the datetime
    whose [isoformat()] the column stores, [None] for NULL; the columns
    written with CURRENT_TIMESTAMP are never read back. *)
Record user : Type := mk_user {
  password_hash : bytes;
  failed_attempts : Z;
  last_attempt_time : option Z;
  locked_until : option Z;
  created_at : Z;
  last_login : option Z
}.

(** [ticks] counts the clock readings made so far, [draws] the values
    taken from the random source, and [work] lists, latest first, the cost
    parameter of every bcrypt key derivation that was run. *)
Record world : Type := mk_world {
  db : gmap string user;
  ticks : nat;
  draws : nat;
  work : list N
}.

(** The world after one more clock reading, one more random draw, one
    more key derivation. *)
Definition ticked (w : world) : world :=
  mk_world (db w) (S (ticks w)) (draws w) (work w).
Definition drawn (w : world) : world :=
  mk_world (db w) (ticks w) (S (draws w)) (work w).
Definition spent (cost : N) (w : world) : world :=
  mk_world (db w) (ticks w) (draws w) (cost :: work w).
Definition with_db (d : gmap string user) (w : world) : world :=
  mk_world d (ticks w) (draws w) (work w).

Definition M (A : Type) : Type := world -> world * result A.

Definition ret {A} (a : A) : M A := fun w => (w, Ok a).
Definition raise {A} (e : exn) : M A := fun w => (w, Raise e).
Definition bind {A B} (m : M A) (k : A -> M B) : M B :=
  fun w => match m w with
           | (w', Ok a) => k a w'
           | (w', Raise e) => (w', Raise e)
           end.

Notation "x <-- m ;; k" := (bind m (fun x => k))
  (at level 100, m at next level, right associativity).
Notation "m ;;; k" := (bind m (fun _ => k))
  (at level 100, right associativity).

(** [try: m except e: h] *)
Definition try_except {A} (m : M A) (e : exn) (h : M A) : M A :=
  fun w => match m w with
           | (w', Raise e') => if exn_eqb e' e then h w' else (w', Raise e')
           | r => r
           end.

(** [try: m except Exception: h] *)
Definition try_except_any {A} (m : M A) (h : M A) : M A :=
  fun w => match m w with
           | (w', Raise _) => h w'
           | r => r
           end.

(** [SELECT ... FROM users WHERE username = ?], then [fetchone()]. *)
Definition select_user (username : string) : M (option user) :=
  fun w => (w, Ok (db w !! username)).

(** [UPDATE users SET ... WHERE username = ?] *)
Definition update_user (username : string) (set : user -> user) : M unit :=
  fun w => (with_db (alter set username (db w)) w, Ok tt).

Definition spend (cost : N) : M unit := fun w => (spent cost w, Ok tt).

(** ** The bcrypt library

    [bcrypt] is an external package.  Its three entry points used by the
    program are modelled after the library's documented behaviour (the
    releases that truncate the password, i.e. before 5.0):
    - a hash is [$2<v>$<cost, two digits>$<22 salt characters><digest>];
    - [hashpw] reads version, cost and salt off its second argument, which
      is a salt from [gensalt] or a complete hash, and raises [ValueError]
      when that fails; only the first 72 bytes of the password are used;
    - [checkpw] recomputes the hash under the salt embedded in the stored
      one and compares.
    Both arguments are [bytes] throughout the program, so the [TypeError]
    the library keeps for [str] arguments cannot arise, and every byte
    string is taken as a password.  The key derivation itself (eksblowfish
    and the encoding of its output) is the parameter [eks]. *)

Definition is_digit (c : ascii) : bool := in_range "0" "9" c.
Definition digit_val (c : ascii) : N := (code c - 48)%N.
Definition digit_of (n : N) : ascii := ascii_of_N (48 + n).

Definition is_version (c : ascii) : bool :=
  Ascii.eqb c "a" || Ascii.eqb c "b" || Ascii.eqb c "x" || Ascii.eqb c "y".

(** The alphabet of bcrypt's base64: [./A-Za-z0-9]. *)
Definition is_b64 (c : ascii) : bool :=
  Ascii.eqb c "." || Ascii.eqb c "/" ||
  in_range "A" "Z" c || in_range "a" "z" c || in_range "0" "9" c.

Definition b64_alphabet : bytes :=
  bytes_of "./ABCDEFGHIJKLMNOPQRSTUVWXYZabcdefghijklmnopqrstuvwxyz0123456789".

Definition b64_char (i : N) : ascii := nth (N.to_nat i) b64_alphabet "."%char.

(** [n] base64 characters spelled from a random number. *)
Fixpoint b64_chars (n : nat) (seed : N) : bytes :=
  match n with
  | O => []
  | S n' => b64_char (seed mod 64) :: b64_chars n' (seed / 64)
  end.

Definition salt_prefix (v : ascii) (cost : N) : bytes :=
  ["$"; "2"; v; "$"; digit_of (cost / 10); digit_of (cost mod 10); "$"]%char.

Definition parse_salt (salt : bytes) : option (ascii * N * bytes) :=
  match salt with
  | c0 :: c1 :: v :: c3 :: d1 :: d2 :: c6 :: rest =>
      let cost := (10 * digit_val d1 + digit_val d2)%N in
      if Ascii.eqb c0 "$" && Ascii.eqb c1 "2" && is_version v &&
         Ascii.eqb c3 "$" && is_digit d1 && is_digit d2 && Ascii.eqb c6 "$" &&
         (4 <=? cost)%N && (cost <=? 31)%N &&
         (22 <=? length rest)%nat && forallb is_b64 (firstn 22 rest)
      then Some (v, cost, firstn 22 rest)
      else None
  | _ => None
  end.

Definition hash_string (v : ascii) (cost : N) (salt22 digest : bytes) : bytes :=
  salt_prefix v cost ++ salt22 ++ digest.

(** ** The program's configuration *)

Record LoginSystem : Type := mk_LoginSystem {
  db_file : string;
  max_attempts : Z;
  lockout_duration : Z;
  min_password_length : Z;
  pepper : string
}.

Definition minutes (n : Z) : Z := n * 60 * 1000000.

(** [td.seconds] of a timedelta of [us] microseconds: the seconds within
    the day, once the whole days are taken out. *)
Definition td_seconds (us : Z) : Z := (us / 1000000) mod 86400.

Definition hex_char (i : N) : ascii :=
  nth (N.to_nat i) (bytes_of "0123456789abcdef") "0"%char.

Fixpoint hex_chars (n : nat) (seed : N) : string :=
  match n with
  | O => EmptyString
  | S n' => String (hex_char (seed mod 16)) (hex_chars n' (seed / 16))
  end.

Section Program.

(** The key derivation: cost, salt characters, key (at most 72 bytes) to
    digest characters. *)
Variable eks : N -> bytes -> bytes -> bytes.
(** The operating system's random source, by draw. *)
Variable urandom : nat -> N.
(** [datetime.now()] and SQLite's CURRENT_TIMESTAMP, by clock reading. *)
Variable datetime_now : nat -> Z.
Variable current_timestamp : nat -> Z.
(** The process environment as [load_dotenv()] leaves it. *)
Variable environ : string -> option string.

Definition draw : M N :=
  fun w => (drawn w, Ok (urandom (draws w))).

Definition now : M Z :=
  fun w => (ticked w, Ok (datetime_now (ticks w))).

Definition sql_now : M Z :=
  fun w => (ticked w, Ok (current_timestamp (ticks w))).

(** [bcrypt.gensalt(rounds=12, prefix=b"2b")] *)
Definition gensalt (rounds : N) : M bytes :=
  if ((rounds <? 4) || (31 <? rounds))%N then raise ValueError
  else seed <-- draw ;; ret (salt_prefix "b" rounds ++ b64_chars 22 seed).

(** [bcrypt.hashpw(password, salt)] *)
Definition hashpw (password salt : bytes) : M bytes :=
  match parse_salt salt with
  | None => raise ValueError
  | Some (v, cost, salt22) =>
      spend cost ;;;
      ret (hash_string v cost salt22 (eks cost salt22 (firstn 72 password)))
  end.

(** [bcrypt.checkpw(password, hashed_password)] *)
Definition checkpw (password hashed_password : bytes) : M bool :=
  r <-- hashpw password hashed_password ;;
  ret (bool_decide (r = hashed_password)).

(** [secrets.token_hex(nbytes)] *)
Definition token_hex (nbytes : nat) : M string :=
  seed <-- draw ;; ret (hex_chars (2 * nbytes) seed).

(** [CREATE TABLE IF NOT EXISTS] leaves an existing table as it is. *)
Definition _initialize_database : M unit := ret tt.

Definition __init__ : M LoginSystem :=
  _initialize_database ;;;
  generated <-- token_hex 32 ;;
  ret {| db_file := "users.db";
         max_attempts := 3;
         lockout_duration := minutes 15;
         min_password_length := 12;
         pepper := default generated (environ "PASSWORD_PEPPER") |}.

Definition _hash_password (self : LoginSystem) (password : string) : M bytes :=
  let peppered_password := encode_utf8 (password +:+ pepper self) in
  salt <-- gensalt 12 ;;
  hashpw peppered_password salt.

Definition _verify_password (self : LoginSystem) (password : string)
    (hashed : bytes) : M bool :=
  let peppered_password := encode_utf8 (password +:+ pepper self) in
  try_except (checkpw peppered_password hashed) ValueError (ret false).

Definition is_special (c : ascii) : bool :=
  existsb (Ascii.eqb c)
    (bytes_of "!@#$%^&*(),.?" ++ [ascii_of_N 34] ++ bytes_of ":{}|<>").

Definition _validate_password_strength (self : LoginSystem) (password : string)
    : bool * string :=
  if Z.of_nat (String.length password) <? min_password_length self then
    (false, "Password must be at least " +:+ pretty (min_password_length self)
            +:+ " characters long")
  else if negb (re_search_class (in_range "A" "Z") password) then
    (false, "Password must contain at least one uppercase letter")
  else if negb (re_search_class (in_range "a" "z") password) then
    (false, "Password must contain at least one lowercase letter")
  else if negb (re_search_class (in_range "0" "9") password) then
    (false, "Password must contain at least one number")
  else if negb (re_search_class is_special password) then
    (false, "Password must contain at least one special character")
  else if existsb (fun pattern => str_contains pattern (lower password))
                  ["password"; "123"; "qwerty"; "admin"] then
    (false, "Password contains common patterns that are not allowed")
  else
    (true, "Password meets security requirements").

Definition _is_account_locked (self : LoginSystem) (username : string)
    : M (bool * option string) :=
  result <-- select_user username ;;
  match result with
  | Some row =>
      match locked_until row with
      | Some until =>
          t <-- now ;;
          if t <? until then
            t' <-- now ;;
            let time_remaining := until - t' in
            ret (true, Some ("Account is locked. Try again in "
                             +:+ pretty (td_seconds time_remaining / 60)
                             +:+ " minutes"))
          else
            (* Reset lockout if duration has passed *)
            update_user username (fun r =>
              mk_user (password_hash r) 0 (last_attempt_time r) None
                      (created_at r) (last_login r)) ;;;
            ret (false, None)
      | None => ret (false, None)
      end
  | None => ret (false, None)
  end.

Definition username_char (c : ascii) : bool :=
  in_range "a" "z" c || in_range "A" "Z" c || in_range "0" "9" c ||
  Ascii.eqb c "_" || Ascii.eqb c "-".

Definition newline : ascii := ascii_of_N 10.

(** [re.match(r'^[a-zA-Z0-9_-]+$', s)]; [$] also matches just before a
    newline that ends the string. *)
Fixpoint re_match_username (s : string) : bool :=
  match s with
  | EmptyString => false
  | String c rest =>
      username_char c &&
      (match rest with
       | EmptyString => true
       | String c' EmptyString => Ascii.eqb c' newline || re_match_username rest
       | _ => re_match_username rest
       end)
  end.

(** [INSERT INTO users (username, password_hash) VALUES (?, ?)]: the
    other columns take their defaults; a second row for a username breaks
    the UNIQUE constraint. *)
Definition insert_user (username : string) (hash : bytes) : M unit :=
  result <-- select_user username ;;
  match result with
  | Some _ => raise IntegrityError
  | None =>
      t <-- sql_now ;;
      fun w => (with_db (<[username := mk_user hash 0 None None t None]> (db w)) w,
                Ok tt)
  end.

Definition register (self : LoginSystem) (username password : string)
    : M (bool * string) :=
  if (String.length username <? 3)%nat then
    ret (false, "Username must be at least 3 characters long")
  else if negb (re_match_username username) then
    ret (false, "Username can only contain letters, numbers, underscores, and hyphens")
  else
    let '(is_valid, message) := _validate_password_strength self password in
    if negb is_valid then ret (false, message)
    else
      try_except_any
        (try_except
           (password_hash <-- _hash_password self password ;;
            insert_user username password_hash ;;;
            ret (true, "Registration successful"))
           IntegrityError
           (ret (false, "Username already exists")))
        (ret (false, "Registration failed due to system error")).

(** The second component is [None] only if [_is_account_locked] reports
    a lock without a message. *)
Definition login (self : LoginSystem) (username password : string)
    : M (bool * option string) :=
  try_except_any
    (locked <-- _is_account_locked self username ;;
     let '(is_locked, lock_message) := locked in
     if is_locked : bool then ret (false, lock_message)
     else
       result <-- select_user username ;;
       match result with
       | None =>
           (* Use consistent timing for non-existent users *)
           salt <-- gensalt 12 ;;
           hashpw (bytes_of "dummy_password") salt ;;;
           ret (false, Some "Invalid username or password")
       | Some row =>
           let stored_hash := password_hash row in
           let failed_attempts := failed_attempts row in
           ok <-- _verify_password self password stored_hash ;;
           if ok : bool then
             t <-- sql_now ;;
             update_user username (fun r =>
               mk_user (password_hash r) 0 (last_attempt_time r) None
                       (created_at r) (Some t)) ;;;
             ret (true, Some "Login successful")
           else
             let new_failed_attempts := failed_attempts + 1 in
             if max_attempts self <=? new_failed_attempts then
               t <-- now ;;
               let until := t + lockout_duration self in
               update_user username (fun r =>
                 mk_user (password_hash r) new_failed_attempts
                         (last_attempt_time r) (Some until)
                         (created_at r) (last_login r)) ;;;
               ret (false, Some ("Account locked due to too many failed attempts. Try again in "
                                 +:+ pretty (td_seconds (lockout_duration self) / 60)
                                 +:+ " minutes"))
             else
               t <-- sql_now ;;
               update_user username (fun r =>
                 mk_user (password_hash r) new_failed_attempts (Some t)
                         (locked_until r) (created_at r) (last_login r)) ;;;
               ret (false, Some "Invalid username or password")
       end)
    (ret (false, Some "Login failed due to system error")).

End Program.

(** ** Vocabulary of the properties *)

(** A salt as [parse_salt] accepts it. *)
Definition salt_ok (v : ascii) (cost : N) (salt22 : bytes) : Prop :=
  is_version v = true /\ (4 <= cost <= 31)%N /\
  length salt22 = 22%nat /\ forallb is_b64 salt22 = true.

(** The key bcrypt derives from: the peppered password, encoded, cut at
    72 bytes. *)
Definition bcrypt_key (password pepper : string) : bytes :=
  firstn 72 (encode_utf8 (password +:+ pepper)).

(** The cost parameter a stored hash carries, if it parses. *)
Definition hash_cost (hashed : bytes) : option N :=
  match parse_salt hashed with
  | Some (_, cost, _) => Some cost
  | None => None
  end.

(** The world after a verification against [hashed]: one key derivation
    when the hash parses, none otherwise. *)
Definition verified (hashed : bytes) (w : world) : world :=
  match hash_cost hashed with
  | Some cost => spent cost w
  | None => w
  end.

(** The row after the lazy reset, a successful login, and a failed one. *)
Definition reset_row (r : user) : user :=
  mk_user (password_hash r) 0 (last_attempt_time r) None (created_at r) (last_login r).

Definition Active (r : user) : Prop := locked_until r = None.
Definition Locked (r : user) (until : Z) : Prop := locked_until r = Some until.

(** The account invariants of the data model. *)
Definition account_invariant (self : LoginSystem) (r : user) : Prop :=
  0 <= failed_attempts r <= max_attempts self /\
  (locked_until r <> None -> max_attempts self <= failed_attempts r).

(** What the operations actually maintain: an active account is below the
    threshold, a locked one exactly at it. *)
Definition lockout_invariant (self : LoginSystem) (r : user) : Prop :=
  match locked_until r with
  | None => 0 <= failed_attempts r < max_attempts self
  | Some _ => failed_attempts r = max_attempts self
  end.

(** The validation contract in the specification's words: six checks,
    each looked at on its own, reported in a fixed order. *)
Inductive ValidationError : Type :=
  | TooShort
  | MissingUppercase
  | MissingLowercase
  | MissingDigit
  | MissingSpecial
  | ContainsBannedPattern.

Definition check_order : list ValidationError :=
  [TooShort; MissingUppercase; MissingLowercase; MissingDigit; MissingSpecial;
   ContainsBannedPattern].

Definition fails (self : LoginSystem) (password : string) (e : ValidationError) : bool :=
  match e with
  | TooShort => Z.of_nat (String.length password) <? min_password_length self
  | MissingUppercase => negb (re_search_class (in_range "A" "Z") password)
  | MissingLowercase => negb (re_search_class (in_range "a" "z") password)
  | MissingDigit => negb (re_search_class (in_range "0" "9") password)
  | MissingSpecial => negb (re_search_class is_special password)
  | ContainsBannedPattern =>
      existsb (fun pattern => str_contains pattern (lower password))
              ["password"; "123"; "qwerty"; "admin"]
  end.

Definition validate_strength (self : LoginSystem) (password : string)
    : option ValidationError :=
  List.find (fails self password) check_order.

Definition error_message (self : LoginSystem) (e : ValidationError) : string :=
  match e with
  | TooShort => "Password must be at least " +:+ pretty (min_password_length self)
                +:+ " characters long"
  | MissingUppercase => "Password must contain at least one uppercase letter"
  | MissingLowercase => "Password must contain at least one lowercase letter"
  | MissingDigit => "Password must contain at least one number"
  | MissingSpecial => "Password must contain at least one special character"
  | ContainsBannedPattern => "Password contains common patterns that are not allowed"
  end.

(** A property of every row of the table. *)
Definition all_accounts (P : user -> Prop) (w : world) : Prop :=
  forall (u : string) (r : user), db w !! u = Some r -> P r.

Definition invalid_credentials : bool * option string :=
  (false, Some "Invalid username or password").

Definition locked_message (until t : Z) : string :=
  "Account is locked. Try again in " +:+ pretty (td_seconds (until - t) / 60)
  +:+ " minutes".

Definition lockout_message (self : LoginSystem) : string :=
  "Account locked due to too many failed attempts. Try again in "
  +:+ pretty (td_seconds (lockout_duration self) / 60) +:+ " minutes".

(** The row a login writes once the password has been checked. *)
Definition after_login (self : LoginSystem) (matches : bool) (t_sql t_now : Z)
    (r : user) : user :=
  if matches then
    mk_user (password_hash r) 0 (last_attempt_time r) None (created_at r) (Some t_sql)
  else if max_attempts self <=? failed_attempts r + 1 then
    mk_user (password_hash r) (failed_attempts r + 1) (last_attempt_time r)
            (Some (t_now + lockout_duration self)) (created_at r) (last_login r)
  else
    mk_user (password_hash r) (failed_attempts r + 1) (Some t_sql)
            (locked_until r) (created_at r) (last_login r).

Definition login_answer (self : LoginSystem) (matches : bool) (r : user)
    : bool * option string :=
  if matches then (true, Some "Login successful")
  else if max_attempts self <=? failed_attempts r + 1 then (false, Some (lockout_message self))
  else invalid_credentials.

Section Runs.

Context (eks : N -> bytes -> bytes -> bytes) (urandom : nat -> N)
        (datetime_now current_timestamp : nat -> Z).

(** Whether [_verify_password] accepts [password] for a stored hash. *)
Definition password_matches (self : LoginSystem) (password : string)
    (hashed : bytes) : bool :=
  match parse_salt hashed with
  | Some (v, cost, salt22) =>
      bool_decide
        (hash_string v cost salt22 (eks cost salt22 (bcrypt_key password (pepper self)))
         = hashed)
  | None => false
  end.

(** The world after logging in as [username] with each password in turn. *)
Fixpoint attempts (self : LoginSystem) (username : string) (passwords : list string)
    (w : world) : world :=
  match passwords with
  | [] => w
  | p :: ps =>
      attempts self username ps
        (fst (login eks urandom datetime_now current_timestamp self username p w))
  end.

(** The operations on accounts, and the worlds a run of them reaches from
    an empty table. *)
Inductive operation : Type :=
  | Register (username password : string)
  | Login (username password : string)
  | AdmissionCheck (username : string).

Definition perform (self : LoginSystem) (o : operation) (w : world) : world :=
  match o with
  | Register u p => fst (register eks urandom current_timestamp self u p w)
  | Login u p => fst (login eks urandom datetime_now current_timestamp self u p w)
  | AdmissionCheck u => fst (_is_account_locked datetime_now self u w)
  end.

Inductive reachable (self : LoginSystem) : world -> Prop :=
  | reachable_empty (w : world) : db w = ∅ -> reachable self w
  | reachable_step (w : world) (o : operation) :
      reachable self w -> reachable self (perform self o w).

End Runs.

(** Stand-ins for the parameters, to run the program on examples: a key
    derivation that returns its key, a random source and two clocks that
    follow their index (one second per reading), an environment with no
    variable set and one with the pepper set. *)
Definition eks_id (cost : N) (salt22 key : bytes) : bytes := key.
Definition urandom_count (n : nat) : N := N.of_nat n.
Definition clock_seconds (n : nat) : Z := Z.of_nat n * 1000000.
Definition environ_empty (name : string) : option string := None.
Definition environ_pepper (name : string) : option string :=
  if String.eqb name "PASSWORD_PEPPER" then Some "s3cret-pepper" else None.

Definition world0 : world := mk_world ∅ 0 0 [].
Definition system0 : LoginSystem := mk_LoginSystem "users.db" 3 (minutes 15) 12 "pepper".

(** A run on these stand-ins: alice registers, then fails to log in
    two and three times; [world_later] is the locked world read when the
    clock shows 1000 s, after the lock (set at 3 s for 900 s) has run out. *)
Definition alice_hash : bytes :=
  hash_string "b" 12 (b64_chars 22 0) (bcrypt_key "Str0ng!Passw0rd" "pepper").
Definition row_registered : user := mk_user alice_hash 0 None None 0 None.
Definition row_locked : user :=
  mk_user alice_hash 3 (Some 2000000) (Some 903000000) 0 None.

Definition world_registered : world :=
  fst (register eks_id urandom_count clock_seconds system0 "alice" "Str0ng!Passw0rd"
         world0).
Definition world_two_failures : world :=
  attempts eks_id urandom_count clock_seconds clock_seconds system0 "alice"
    ["wrong1"; "wrong2"] world_registered.
Definition world_locked : world :=
  attempts eks_id urandom_count clock_seconds clock_seconds system0 "alice"
    ["wrong1"; "wrong2"; "wrong3"] world_registered.
Definition world_later : world :=
  mk_world (db world_locked) 1000 (draws world_locked) (work world_locked).

Abbreviation login0 :=
  (login eks_id urandom_count clock_seconds clock_seconds system0).

(** More of the same run: alice's record after two failures, a second
    user and a second configuration. *)
Definition row_two_failures : user := mk_user alice_hash 2 (Some 2000000) None 0 None.
Definition world_two_users : world :=
  fst (register eks_id urandom_count clock_seconds system0 "bob_1" "C0rrect!Horse#"
         world_registered).
Definition system1 : LoginSystem :=
  mk_LoginSystem "users.db" 3 (minutes 15) 12 "another pepper".

(** Two passwords of 73 characters that differ in the last one only. *)
Definition long_prefix : string := string_of_list_ascii (repeat "A"%char 72).
Definition long_password_x : string := long_prefix +:+ "x".
Definition long_password_y : string := long_prefix +:+ "y".

(** ** The console loop

    [main] talks to a terminal.  What the terminal delivers at each call
    of [input] is a line or an interrupt (Ctrl-C); an exhausted [stdin] is
    the end of file.  An interrupt outside [input] is not modelled.
    [stdout] lists the texts written, in order. *)

Inductive keyboard : Type :=
  | Line (s : string)
  | Interrupt.

Record console : Type := mk_console {
  stdin : list keyboard;
  stdout : list string
}.

Inductive input_outcome : Type :=
  | Entered (s : string)
  | EOFError
  | KeyboardInterrupt.

Definition nl : string := String newline EmptyString.

Definition write (text : string) (c : console) : console :=
  mk_console (stdin c) (stdout c ++ [text]).

(** [print(text)] *)
Definition print (text : string) (c : console) : console := write (text +:+ nl) c.

(** [input(prompt)] *)
Definition input (prompt : string) (c : console) : console * input_outcome :=
  match stdin c with
  | [] => (write prompt c, EOFError)
  | Line s :: rest => (mk_console rest (stdout c ++ [prompt]), Entered s)
  | Interrupt :: rest => (mk_console rest (stdout c ++ [prompt]), KeyboardInterrupt)
  end.

(** [c.isspace()] for code points below 256. *)
Definition is_space (c : ascii) : bool :=
  ((9 <=? code c) && (code c <=? 13) || (28 <=? code c) && (code c <=? 32) ||
   (code c =? 133) || (code c =? 160))%N.

Fixpoint lstrip (s : string) : string :=
  match s with
  | EmptyString => EmptyString
  | String c s' => if is_space c then lstrip s' else s
  end.

Fixpoint rstrip (s : string) : string :=
  match s with
  | EmptyString => EmptyString
  | String c s' =>
      match rstrip s' with
      | EmptyString => if is_space c then EmptyString else String c EmptyString
      | r => String c r
      end
  end.

(** [s.strip()] *)
Definition strip (s : string) : string := rstrip (lstrip s).

(** [f"{message}"] for a message that may be [None]. *)
Definition show (message : option string) : string := default "None" message.

Definition menu (c : console) : console :=
  print "3. Exit"
    (print "2. Login"
       (print "1. Register"
          (print (nl +:+ "=== Secure Login System ===") c))).

(** The two handlers of the loop. *)
Definition handled (o : input_outcome) (c : console) : console :=
  match o with
  | KeyboardInterrupt => print (nl +:+ "Operation cancelled by user.") c
  | _ => print (nl +:+ "An error occurred. Please try again.") c
  end.

(** The two prompts both branches start with. *)
Definition credentials (c : console) : console * (string * string + input_outcome) :=
  match input "Enter username: " c with
  | (c1, Entered line1) =>
      let username := strip line1 in
      match input "Enter password: " c1 with
      | (c2, Entered line2) => (c2, inl (username, strip line2))
      | (c2, o) => (c2, inr o)
      end
  | (c1, o) => (c1, inr o)
  end.

(** What [menu] followed by the prompt for the choice writes. *)
Definition menu_texts : list string :=
  [nl +:+ "=== Secure Login System ===" +:+ nl;
   "1. Register" +:+ nl;
   "2. Login" +:+ nl;
   "3. Exit" +:+ nl;
   nl +:+ "Enter your choice (1-3): "].

Section Console.

Context (eks : N -> bytes -> bytes -> bytes) (urandom : nat -> N)
        (datetime_now current_timestamp : nat -> Z)
        (environ : string -> option string).

(** One round of [while True]; the boolean tells whether the loop goes
    on. *)
Definition round (login_system : LoginSystem) (c : console) (w : world)
    : bool * console * world :=
  match input (nl +:+ "Enter your choice (1-3): ") (menu c) with
  | (c1, Entered line) =>
      let choice := strip line in
      if String.eqb choice "1" then
        match credentials c1 with
        | (c2, inl (username, password)) =>
            match register eks urandom current_timestamp login_system username password w with
            | (w', Ok (success, message)) => (true, print (nl +:+ message) c2, w')
            | (w', Raise _) =>
                (* an exception out of the call reaches [except Exception] *)
                (true, handled EOFError c2, w')
            end
        | (c2, inr o) => (true, handled o c2, w)
        end
      else if String.eqb choice "2" then
        match credentials c1 with
        | (c2, inl (username, password)) =>
            match login eks urandom datetime_now current_timestamp login_system
                        username password w with
            | (w', Ok (success, message)) =>
                let c3 := print (nl +:+ show message) c2 in
                (true,
                 if success : bool then print ("Welcome, " +:+ username +:+ "!") c3 else c3,
                 w')
            | (w', Raise _) => (true, handled EOFError c2, w')
            end
        | (c2, inr o) => (true, handled o c2, w)
        end
      else if String.eqb choice "3" then
        (false, print (nl +:+ "Goodbye!") c1, w)
      else
        (true, print (nl +:+ "Invalid choice. Please try again.") c1, w)
  | (c1, o) => (true, handled o c1, w)
  end.

(** The loop, for at most [fuel] rounds; the boolean tells whether it was
    left by [break]. *)
Fixpoint main_loop (fuel : nat) (login_system : LoginSystem) (c : console) (w : world)
    : bool * console * world :=
  match fuel with
  | O => (false, c, w)
  | S fuel' =>
      match round login_system c w with
      | (true, c', w') => main_loop fuel' login_system c' w'
      | (false, c', w') => (true, c', w')
      end
  end.

Definition main (fuel : nat) (c : console) (w : world) : bool * console * world :=
  match __init__ urandom environ w with
  | (w', Ok login_system) => main_loop fuel login_system c w'
  | (w', Raise _) => (true, c, w')
  end.

End Console.

(** The account an operation is about. *)
Definition target (o : operation) : string :=
  match o with
  | Register u _ | Login u _ | AdmissionCheck u => u
  end.

(** The table after an operation on [u]: as before, or with the record
    of [u] rewritten under the same hash, or, for a registration only,
    with a first record for [u] whose hash has cost 12. *)
Definition table_step (u : string) (d d' : gmap string user) : Prop :=
  d' = d \/
  (exists row row' : user,
     d !! u = Some row /\ d' = <[u := row']> d /\
     password_hash row' = password_hash row) \/
  (exists row' : user,
     d !! u = None /\ d' = <[u := row']> d /\
     hash_cost (password_hash row') = Some 12%N).

Section Issue.

Context (eks : N -> bytes -> bytes -> bytes) (urandom : nat -> N).

(** The hash [register] stores when it is called in [w]. *)
Definition issued_hash (self : LoginSystem) (p : string) (w : world) : bytes :=
  let salt22 := b64_chars 22 (urandom (draws w)) in
  hash_string "b" 12 salt22 (eks 12 salt22 (bcrypt_key p (pepper self))).

End Issue.

(** The strings [re.match(r'^[a-zA-Z0-9_-]+$', s)] accepts, spelled out:
    one or more allowed characters, then possibly one newline. *)
Fixpoint all_chars (cls : ascii -> bool) (s : string) : bool :=
  match s with
  | EmptyString => true
  | String c s' => cls c && all_chars cls s'
  end.

Definition username_shape (s : string) : Prop :=
  exists body : string,
    body <> EmptyString /\ all_chars username_char body = true /\
    (s = body \/ s = body +:+ nl).

Definition banned_patterns : list string := ["password"; "123"; "qwerty"; "admin"].

(** A console session that registers alice and leaves. *)
Definition console0 : console :=
  mk_console [Line " 1 "; Line "alice"; Line "Str0ng!Passw0rd"; Line "3"] [].

(** * Properties *)

(** ** The hash format *)

Lemma code_ascii_of_N (n : N) : (n < 256)%N -> code (ascii_of_N n) = n.
Proof. intros H. unfold code. now apply N_ascii_embedding. Qed.

Lemma digit_of_spec (n : N) :
  (n < 10)%N -> is_digit (digit_of n) = true /\ digit_val (digit_of n) = n.
Proof.
  intros H. unfold is_digit, in_range, digit_val, digit_of.
  rewrite code_ascii_of_N by lia. change (code "0") with 48%N.
  change (code "9") with 57%N. split; [| lia].
  apply andb_true_intro. split; apply N.leb_le; lia.
Qed.

Lemma b64_char_ok (i : N) : (i < 64)%N -> is_b64 (b64_char i) = true.
Proof.
  intros H.
  assert (Hall : forallb (fun k => is_b64 (b64_char (N.of_nat k))) (seq 0 64) = true)
    by (vm_compute; reflexivity).
  rewrite forallb_forall in Hall.
  specialize (Hall (N.to_nat i)). rewrite N2Nat.id in Hall.
  apply Hall. apply in_seq. lia.
Qed.

Lemma b64_chars_length (n : nat) (seed : N) : length (b64_chars n seed) = n.
Proof. revert seed. induction n as [| n IH]; intros seed; simpl; [| rewrite IH]; reflexivity. Qed.

Lemma b64_chars_ok (n : nat) (seed : N) : forallb is_b64 (b64_chars n seed) = true.
Proof.
  revert seed. induction n as [| n IH]; intros seed; simpl; [reflexivity |].
  rewrite IH, andb_true_r. apply b64_char_ok. apply N.mod_lt. discriminate.
Qed.

Lemma parse_salt_hash_string (v : ascii) (cost : N) (salt22 digest : bytes) :
  salt_ok v cost salt22 ->
  parse_salt (hash_string v cost salt22 digest) = Some (v, cost, salt22).
Proof.
  intros (Hv & Hc & Hl & Hb).
  assert (Hq : (cost / 10 < 10)%N) by (apply N.Div0.div_lt_upper_bound; lia).
  assert (Hr : (cost mod 10 < 10)%N) by (apply N.mod_lt; discriminate).
  destruct (digit_of_spec _ Hq) as [Hd1 Hv1].
  destruct (digit_of_spec _ Hr) as [Hd2 Hv2].
  unfold hash_string, salt_prefix, parse_salt. cbn [app].
  rewrite Hv1, Hv2, Hd1, Hd2, Hv.
  rewrite <- (N.div_mod cost 10) by discriminate.
  rewrite length_app, Hl.
  rewrite firstn_app, Hl. change (22 - 22)%nat with 0%nat.
  rewrite firstn_O, app_nil_r, firstn_all2 by lia.
  rewrite Hb. cbn [Ascii.eqb Bool.eqb andb].
  replace (4 <=? cost)%N with true by (symmetry; apply N.leb_le; lia).
  replace (cost <=? 31)%N with true by (symmetry; apply N.leb_le; lia).
  reflexivity.
Qed.

Lemma parse_salt_Some (salt : bytes) (v : ascii) (cost : N) (salt22 : bytes) :
  parse_salt salt = Some (v, cost, salt22) -> salt_ok v cost salt22.
Proof.
  unfold parse_salt.
  destruct salt as [| c0 [| c1 [| v' [| c3 [| d1 [| d2 [| c6 rest]]]]]]]; try discriminate.
  destruct (_ && _) eqn:E; [| discriminate].
  intros [= <- <- <-].
  repeat (apply andb_prop in E; destruct E as [E ?]).
  unfold salt_ok. repeat split; try assumption.
  - now apply N.leb_le.
  - now apply N.leb_le.
  - apply firstn_length_le. now apply Nat.leb_le.
Qed.

(** ** Hashing and verification *)

Lemma encode_utf8_app (s1 s2 : string) :
  encode_utf8 (s1 +:+ s2) = encode_utf8 s1 ++ encode_utf8 s2.
Proof.
  induction s1 as [| c s1 IH]; simpl; [reflexivity |].
  now rewrite IH, app_assoc.
Qed.

Section Hashing.

Context (eks : N -> bytes -> bytes -> bytes) (urandom : nat -> N).

Lemma hashpw_ok (pw salt : bytes) (v : ascii) (cost : N) (salt22 : bytes) (w : world) :
  parse_salt salt = Some (v, cost, salt22) ->
  hashpw eks pw salt w
  = (spent cost w, Ok (hash_string v cost salt22 (eks cost salt22 (firstn 72 pw)))).
Proof. intros H. unfold hashpw. now rewrite H. Qed.

Lemma hashpw_bad (pw salt : bytes) (w : world) :
  parse_salt salt = None -> hashpw eks pw salt w = (w, Raise ValueError).
Proof. intros H. unfold hashpw. now rewrite H. Qed.

Lemma gensalt_salt_ok (seed : N) : salt_ok "b" 12 (b64_chars 22 seed).
Proof.
  unfold salt_ok. split; [reflexivity |]. split; [lia |].
  split; [apply b64_chars_length | apply b64_chars_ok].
Qed.

Lemma gensalt_12 (w : world) :
  gensalt urandom 12 w
  = (drawn w, Ok (hash_string "b" 12 (b64_chars 22 (urandom (draws w))) [])).
Proof. unfold hash_string. now rewrite app_nil_r. Qed.

Lemma _hash_password_eq (self : LoginSystem) (password : string) (w : world) :
  let salt22 := b64_chars 22 (urandom (draws w)) in
  _hash_password eks urandom self password w
  = (spent 12 (drawn w),
     Ok (hash_string "b" 12 salt22 (eks 12 salt22 (bcrypt_key password (pepper self))))).
Proof.
  intros salt22. unfold _hash_password, bind. rewrite gensalt_12.
  erewrite hashpw_ok; [reflexivity |].
  apply parse_salt_hash_string, gensalt_salt_ok.
Qed.

Lemma checkpw_hash_string (pw : bytes) (v : ascii) (cost : N) (salt22 digest : bytes)
    (w : world) :
  salt_ok v cost salt22 ->
  checkpw eks pw (hash_string v cost salt22 digest) w
  = (spent cost w, Ok (bool_decide (eks cost salt22 (firstn 72 pw) = digest))).
Proof.
  intros Hok. unfold checkpw, bind.
  erewrite hashpw_ok by (apply parse_salt_hash_string, Hok).
  unfold ret. do 2 f_equal. unfold hash_string.
  apply bool_decide_ext. split; [| congruence].
  intros H. now do 2 apply app_inv_head in H.
Qed.

Lemma _verify_password_hash_string (self : LoginSystem) (password : string)
    (v : ascii) (cost : N) (salt22 digest : bytes) (w : world) :
  salt_ok v cost salt22 ->
  _verify_password eks self password (hash_string v cost salt22 digest) w
  = (spent cost w,
     Ok (bool_decide (eks cost salt22 (bcrypt_key password (pepper self)) = digest))).
Proof.
  intros Hok. unfold _verify_password, try_except.
  now rewrite checkpw_hash_string.
Qed.

(** Whatever the stored hash, verification returns a boolean; it is
    [true] only for a hash that [hashpw] issues for this very key. *)
Lemma _verify_password_cases (self : LoginSystem) (password : string)
    (hashed : bytes) (w : world) :
  (parse_salt hashed = None /\
   _verify_password eks self password hashed w = (w, Ok false)) \/
  (exists v cost salt22,
     parse_salt hashed = Some (v, cost, salt22) /\
     _verify_password eks self password hashed w
     = (spent cost w,
        Ok (bool_decide
              (hash_string v cost salt22
                 (eks cost salt22 (bcrypt_key password (pepper self))) = hashed)))).
Proof.
  unfold _verify_password, try_except, checkpw, bind.
  destruct (parse_salt hashed) as [[[v cost] salt22] |] eqn:E.
  - right. exists v, cost, salt22. split; [reflexivity |].
    now erewrite hashpw_ok by exact E.
  - left. split; [reflexivity |]. now rewrite hashpw_bad.
Qed.

(** C1.  For every password [p] and every pepper (the one held by
    [self]), hashing [p] returns a hash, and verifying [p] against that
    hash under the same pepper returns [True]. *)
Theorem verify_accepts_issued_hash (self : LoginSystem) (p : string) (w : world) :
  exists (h : bytes) (w1 w2 : world),
    _hash_password eks urandom self p w = (w1, Ok h) /\
    _verify_password eks self p h w1 = (w2, Ok true).
Proof.
  eexists _, _, _. split; [apply _hash_password_eq |].
  rewrite _verify_password_hash_string by apply gensalt_salt_ok.
  now rewrite bool_decide_eq_true_2.
Qed.

(** C4, as amended.  For every pepper and every two passwords [p1], [p2],
    verifying [p2] against the hash issued for [p1] returns [False]
    exactly when bcrypt's digests of the two keys (each peppered password
    cut at 72 bytes), under the salt and cost of that hash, differ. *)
Theorem verify_other_password (self : LoginSystem) (p1 p2 : string) (w : world) :
  let salt22 := b64_chars 22 (urandom (draws w)) in
  exists (h : bytes) (w1 w2 : world),
    _hash_password eks urandom self p1 w = (w1, Ok h) /\
    _verify_password eks self p2 h w1
    = (w2, Ok (bool_decide (eks 12 salt22 (bcrypt_key p2 (pepper self))
                            = eks 12 salt22 (bcrypt_key p1 (pepper self))))).
Proof.
  intros salt22. eexists _, _, _. split; [apply _hash_password_eq |].
  now rewrite _verify_password_hash_string by apply gensalt_salt_ok.
Qed.

(** C10.  For every password, pepper and stored byte sequence,
    verification returns a boolean and raises nothing; when the stored
    bytes are not a hash that [hashpw] can issue, the boolean is [False]. *)
Theorem verify_never_raises (self : LoginSystem) (p : string) (stored_hash : bytes)
    (w : world) :
  (exists (r : bool) (w' : world),
     _verify_password eks self p stored_hash w = (w', Ok r)) /\
  ((forall pw salt w1 w2, hashpw eks pw salt w1 <> (w2, Ok stored_hash)) ->
   exists w' : world, _verify_password eks self p stored_hash w = (w', Ok false)).
Proof.
  destruct (_verify_password_cases self p stored_hash w)
    as [[E ->] | (v & cost & salt22 & E & ->)].
  - split; eauto.
  - split; [eauto |]. intros Hno. eexists. do 2 f_equal.
    apply bool_decide_eq_false_2. intros Heq.
    apply (Hno (encode_utf8 (p +:+ pepper self)) stored_hash w (spent cost w)).
    erewrite hashpw_ok by exact E. unfold bcrypt_key in Heq. now rewrite Heq.
Qed.

End Hashing.

(** ** Admission and login, case by case *)

Section Lockout.

Context (eks : N -> bytes -> bytes -> bytes) (urandom : nat -> N)
        (datetime_now current_timestamp : nat -> Z).

Local Abbreviation login' := (login eks urandom datetime_now current_timestamp).
Local Abbreviation _is_account_locked' := (_is_account_locked datetime_now).
Local Abbreviation password_matches' := (password_matches eks).

Lemma _verify_password_eq (self : LoginSystem) (password : string) (hashed : bytes)
    (w : world) :
  _verify_password eks self password hashed w
  = (verified hashed w, Ok (password_matches' self password hashed)).
Proof.
  unfold verified, hash_cost, password_matches.
  destruct (_verify_password_cases eks self password hashed w)
    as [[E ->] | (v & cost & salt22 & E & ->)]; now rewrite E.
Qed.

Lemma db_verified (hashed : bytes) (w : world) : db (verified hashed w) = db w.
Proof. unfold verified. now destruct (hash_cost hashed). Qed.

Lemma ticks_verified (hashed : bytes) (w : world) : ticks (verified hashed w) = ticks w.
Proof. unfold verified. now destruct (hash_cost hashed). Qed.

Lemma _is_account_locked_absent (self : LoginSystem) (u : string) (w : world) :
  db w !! u = None -> _is_account_locked' self u w = (w, Ok (false, None)).
Proof. intros H. unfold _is_account_locked, bind, select_user. now rewrite H. Qed.

Lemma _is_account_locked_active (self : LoginSystem) (u : string) (w : world) (row : user) :
  db w !! u = Some row -> Active row ->
  _is_account_locked' self u w = (w, Ok (false, None)).
Proof.
  intros H Ha. unfold _is_account_locked, bind, select_user.
  rewrite H. now rewrite Ha.
Qed.

Lemma _is_account_locked_denied (self : LoginSystem) (u : string) (w : world) (row : user)
    (until : Z) :
  db w !! u = Some row -> Locked row until -> datetime_now (ticks w) < until ->
  _is_account_locked' self u w
  = (ticked (ticked w),
     Ok (true, Some (locked_message until (datetime_now (S (ticks w)))))).
Proof.
  intros H Hl Ht. unfold _is_account_locked, bind, select_user.
  rewrite H, Hl. unfold now. apply Z.ltb_lt in Ht. now rewrite Ht.
Qed.

Lemma _is_account_locked_expired (self : LoginSystem) (u : string) (w : world) (row : user)
    (until : Z) :
  db w !! u = Some row -> Locked row until -> until <= datetime_now (ticks w) ->
  _is_account_locked' self u w
  = (with_db (alter reset_row u (db w)) (ticked w), Ok (false, None)).
Proof.
  intros H Hl Ht. unfold _is_account_locked, bind, select_user.
  rewrite H, Hl. unfold now.
  replace (datetime_now (ticks w) <? until) with false
    by (symmetry; apply Z.ltb_ge; lia).
  reflexivity.
Qed.

Lemma login_unknown (self : LoginSystem) (u p : string) (w : world) :
  db w !! u = None ->
  login' self u p w = (spent 12 (drawn w), Ok invalid_credentials).
Proof.
  intros H. unfold login, try_except_any, bind.
  rewrite _is_account_locked_absent by exact H.
  unfold select_user. rewrite H. rewrite gensalt_12.
  erewrite hashpw_ok by (apply parse_salt_hash_string, gensalt_salt_ok).
  reflexivity.
Qed.

Lemma login_denied (self : LoginSystem) (u p : string) (w : world) (row : user)
    (until : Z) :
  db w !! u = Some row -> Locked row until -> datetime_now (ticks w) < until ->
  login' self u p w
  = (ticked (ticked w),
     Ok (false, Some (locked_message until (datetime_now (S (ticks w)))))).
Proof.
  intros H Hl Ht. unfold login, try_except_any, bind.
  now rewrite (_is_account_locked_denied self u w row until).
Qed.

(** Past admission, in a world [w0] that holds [row0] for the username. *)
Lemma login_admitted (self : LoginSystem) (u p : string) (w w0 : world) (row0 : user) :
  _is_account_locked' self u w = (w0, Ok (false, None)) ->
  db w0 !! u = Some row0 ->
  let m := password_matches' self p (password_hash row0) in
  let t := ticks w0 in
  login' self u p w
  = (with_db (<[u := after_login self m (current_timestamp t) (datetime_now t) row0]> (db w0))
       (ticked (verified (password_hash row0) w0)),
     Ok (login_answer self m row0)).
Proof.
  intros Ha H m t. unfold login, try_except_any, bind.
  rewrite Ha. unfold select_user. rewrite H.
  rewrite _verify_password_eq. fold m.
  unfold after_login, login_answer, update_user, sql_now, now, ret, lockout_message.
  destruct m.
  - cbn. rewrite db_verified, ticks_verified.
    unfold with_db. cbn. rewrite ticks_verified. do 2 f_equal.
    apply map_eq. intros k. rewrite lookup_alter, lookup_insert.
    case_decide; [subst; now rewrite H | reflexivity].
  - destruct (max_attempts self <=? failed_attempts row0 + 1).
    + cbn. rewrite db_verified, ticks_verified.
      unfold with_db. cbn. rewrite ticks_verified. do 2 f_equal.
      apply map_eq. intros k. rewrite lookup_alter, lookup_insert.
      case_decide; [subst; now rewrite H | reflexivity].
    + cbn. rewrite db_verified, ticks_verified.
      unfold with_db. cbn. rewrite ticks_verified. do 2 f_equal.
      apply map_eq. intros k. rewrite lookup_alter, lookup_insert.
      case_decide; [subst; now rewrite H | reflexivity].
Qed.

Lemma login_active (self : LoginSystem) (u p : string) (w : world) (row : user) :
  db w !! u = Some row -> Active row ->
  let m := password_matches' self p (password_hash row) in
  let t := ticks w in
  login' self u p w
  = (with_db (<[u := after_login self m (current_timestamp t) (datetime_now t) row]> (db w))
       (ticked (verified (password_hash row) w)),
     Ok (login_answer self m row)).
Proof.
  intros H Ha. apply (login_admitted self u p w w row); [| exact H].
  now apply _is_account_locked_active with row.
Qed.

Lemma login_expired (self : LoginSystem) (u p : string) (w : world) (row : user)
    (until : Z) :
  db w !! u = Some row -> Locked row until -> until <= datetime_now (ticks w) ->
  let m := password_matches' self p (password_hash row) in
  let t := S (ticks w) in
  login' self u p w
  = (with_db (<[u := after_login self m (current_timestamp t) (datetime_now t)
                        (reset_row row)]> (db w))
       (ticked (verified (password_hash row) (ticked w))),
     Ok (login_answer self m (reset_row row))).
Proof.
  intros H Hl Ht m t.
  rewrite (login_admitted self u p w (with_db (alter reset_row u (db w)) (ticked w))
             (reset_row row)).
  - subst m t. change (password_hash (reset_row row)) with (password_hash row).
    unfold verified, with_db, ticked.
    destruct (hash_cost (password_hash row)); cbn; do 2 f_equal;
      apply map_eq; intros k; rewrite !lookup_insert;
      (case_decide; [reflexivity |]); now rewrite lookup_alter_ne.
  - now apply (_is_account_locked_expired self u w row until).
  - cbn. now rewrite lookup_alter_eq, H.
Qed.

(** C6.  A login on an account that is locked with [now < locked_until]
    returns the lock answer carrying the minutes that remain (as the
    program counts them, from a second reading of the clock; they are the
    whole minutes of the remaining time whenever that is within a day).
    Answer and resulting world are the same for every password: no
    verification is attempted, no key derivation is run, and the table,
    hence the account's counter and lock, is left as it was. *)
Theorem login_while_locked (self : LoginSystem) (u : string) (w : world)
    (row : user) (until : Z) :
  db w !! u = Some row -> Locked row until -> datetime_now (ticks w) < until ->
  let remaining := until - datetime_now (S (ticks w)) in
  exists w' : world,
    (forall p : string,
       login' self u p w
       = (w', Ok (false, Some ("Account is locked. Try again in "
                               +:+ pretty (td_seconds remaining / 60) +:+ " minutes")))) /\
    work w' = work w /\ db w' = db w /\
    (0 <= remaining < 86400 * 1000000 ->
     td_seconds remaining / 60 = remaining / 60000000).
Proof.
  intros H Hl Ht remaining. exists (ticked (ticked w)).
  split; [intros p; now apply (login_denied self u p w row until) |].
  repeat split. intros Hr. unfold td_seconds.
  rewrite Z.mod_small.
  - rewrite Z.div_div by lia. reflexivity.
  - split; [apply Z.div_pos; lia | apply Z.div_lt_upper_bound; lia].
Qed.

Lemma attempts_active (self : LoginSystem) (u : string) (ps : list string) :
  forall (w : world) (row : user),
    db w !! u = Some row -> Active row ->
    Forall (fun q => password_matches' self q (password_hash row) = false) ps ->
    failed_attempts row + Z.of_nat (length ps) < max_attempts self ->
    exists row' : user,
      db (attempts eks urandom datetime_now current_timestamp self u ps w) !! u
      = Some row' /\
      Active row' /\ password_hash row' = password_hash row /\
      failed_attempts row' = failed_attempts row + Z.of_nat (length ps).
Proof.
  induction ps as [| q ps IH]; intros w row H Ha Hall Hlt.
  - exists row. cbn. repeat split; [exact H | exact Ha | lia].
  - apply Forall_cons in Hall as [Hq Hall].
    cbn [attempts length] in *.
    rewrite (login_active self u q w row H Ha). cbn [fst]. rewrite Hq.
    unfold after_login.
    replace (max_attempts self <=? failed_attempts row + 1) with false
      by (symmetry; apply Z.leb_gt; lia).
    lazymatch goal with
    | |- context [attempts _ _ _ _ self u ps (with_db (<[u := ?r]> _) ?w0)] =>
        destruct (IH (with_db (<[u := r]> (db w)) w0) r)
          as (row' & H' & Ha' & Hh' & Hf')
    end.
    + cbn. apply lookup_insert_eq.
    + exact Ha.
    + exact Hall.
    + cbn [failed_attempts]. lia.
    + exists row'. cbn [failed_attempts password_hash] in *.
      repeat split; try assumption. lia.
Qed.

Lemma failed_login_step (self : LoginSystem) (u p : string) (w : world) (row : user) :
  db w !! u = Some row -> Active row ->
  password_matches' self p (password_hash row) = false ->
  exists (w2 : world) (answer : option string) (row2 : user),
    login' self u p w = (w2, Ok (false, answer)) /\
    db w2 !! u = Some row2 /\
    failed_attempts row2 = failed_attempts row + 1 /\
    locked_until row2
    = if max_attempts self <=? failed_attempts row + 1
      then Some (datetime_now (ticks w) + lockout_duration self)
      else None.
Proof.
  intros H Ha Hp. rewrite (login_active self u p w row H Ha). rewrite Hp.
  unfold login_answer, after_login.
  destruct (max_attempts self <=? _) eqn:E.
  - eexists _, _, _. split; [reflexivity |]. cbn. rewrite lookup_insert_eq.
    split; [reflexivity |]. cbn. split; reflexivity.
  - eexists _, _, _. split; [reflexivity |]. cbn. rewrite lookup_insert_eq.
    split; [reflexivity |]. cbn. split; [reflexivity | exact Ha].
Qed.

(** C2.  A failed login on an active account stores the count plus one,
    and locks the account, with [locked_until = now + lockout_duration],
    exactly when the new count has reached [max_attempts]; otherwise the
    account stays active.  Over consecutive failed logins [ps] then [p]:
    as long as the count after [ps] is below [max_attempts] the account
    is still active after them, and [p] locks it exactly when it brings
    the count to [max_attempts].  From a count of 0, that is a lock at the
    [max_attempts]-th failure and an active account after
    [max_attempts - 1]. *)
Theorem failed_logins_lock_at_threshold (self : LoginSystem) (u p : string)
    (ps : list string) (w : world) (row : user) :
  db w !! u = Some row -> Active row ->
  Forall (fun q => password_matches' self q (password_hash row) = false) (p :: ps) ->
  (exists (w2 : world) (answer : option string) (row2 : user),
     login' self u p w = (w2, Ok (false, answer)) /\
     db w2 !! u = Some row2 /\
     failed_attempts row2 = failed_attempts row + 1 /\
     locked_until row2
     = if max_attempts self <=? failed_attempts row + 1
       then Some (datetime_now (ticks w) + lockout_duration self)
       else None) /\
  (failed_attempts row + Z.of_nat (length ps) < max_attempts self ->
   let w1 := attempts eks urandom datetime_now current_timestamp self u ps w in
   let count := failed_attempts row + Z.of_nat (length ps) in
   (exists row1 : user,
      db w1 !! u = Some row1 /\ Active row1 /\ failed_attempts row1 = count) /\
   (exists (w2 : world) (answer : option string) (row2 : user),
      login' self u p w1 = (w2, Ok (false, answer)) /\
      db w2 !! u = Some row2 /\
      failed_attempts row2 = count + 1 /\
      locked_until row2
      = if max_attempts self <=? count + 1
        then Some (datetime_now (ticks w1) + lockout_duration self)
        else None)).
Proof.
  intros H Ha Hall.
  apply Forall_cons in Hall as [Hp Hall].
  split; [now apply failed_login_step |].
  intros Hlt w1 count.
  destruct (attempts_active self u ps w row H Ha Hall Hlt) as (row1 & H1 & Ha1 & Hh1 & Hf1).
  fold w1 in H1. split; [exists row1; auto |].
  rewrite <- Hh1 in Hp.
  destruct (failed_login_step self u p w1 row1 H1 Ha1 Hp) as (w2 & answer & row2 & Hl & Hd & Hf & Hu).
  exists w2, answer, row2. unfold count. rewrite <- Hf1. auto.
Qed.

Lemma login_success_row (self : LoginSystem) (u p : string) (w : world) (row : user) :
  db w !! u = Some row -> Active row ->
  password_matches' self p (password_hash row) = true ->
  exists (w' : world) (row' : user),
    login' self u p w = (w', Ok (true, Some "Login successful")) /\
    db w' !! u = Some row' /\
    failed_attempts row' = 0 /\ locked_until row' = None /\
    last_login row' = Some (current_timestamp (Nat.pred (ticks w'))).
Proof.
  intros H Ha Hm. rewrite (login_active self u p w row H Ha). rewrite Hm.
  eexists _, _. split; [reflexivity |].
  cbn. rewrite lookup_insert_eq, ticks_verified. repeat split.
Qed.

(** Failures that stay below the threshold, then the right password. *)
Lemma success_after_failures (self : LoginSystem) (u p : string) (qs : list string)
    (w : world) (row : user) :
  db w !! u = Some row -> Active row ->
  Forall (fun q => password_matches' self q (password_hash row) = false) qs ->
  failed_attempts row + Z.of_nat (length qs) < max_attempts self ->
  password_matches' self p (password_hash row) = true ->
  let w1 := attempts eks urandom datetime_now current_timestamp self u qs w in
  (exists row1 : user,
     db w1 !! u = Some row1 /\ Active row1 /\
     failed_attempts row1 = failed_attempts row + Z.of_nat (length qs)) /\
  (exists (w' : world) (row' : user),
     login' self u p w1 = (w', Ok (true, Some "Login successful")) /\
     db w' !! u = Some row' /\
     failed_attempts row' = 0 /\ locked_until row' = None /\
     last_login row' = Some (current_timestamp (Nat.pred (ticks w')))).
Proof.
  intros H Ha Hall Hlt Hm w1.
  destruct (attempts_active self u qs w row H Ha Hall Hlt) as (row1 & H1 & Ha1 & Hh1 & Hf1).
  fold w1 in H1. split; [exists row1; auto |].
  rewrite <- Hh1 in Hm. now apply (login_success_row self u p w1 row1).
Qed.

(** C3.  For a locked account whose [locked_until] has passed, the
    admission check reports the account as not locked and stores
    [failed_attempts = 0] and no [locked_until]; nothing but the reading of
    the record triggers this.  A login with the right password, in that
    same call or after the check, succeeds and leaves [failed_attempts = 0]
    and no [locked_until]; a login with a wrong password counts from 0.
    And a later successful login clears the count again: after the
    expiry, wrong passwords [qs] (fewer than [max_attempts]) bring the
    count to their number on an active account, and the right password
    then succeeds and stores [failed_attempts = 0], no [locked_until] and
    the time of the login. *)
Theorem expired_lock_is_reset (self : LoginSystem) (u p : string) (w : world)
    (row : user) (until : Z) :
  db w !! u = Some row -> Locked row until -> until <= datetime_now (ticks w) ->
  (exists (w' : world) (row' : user),
     _is_account_locked' self u w = (w', Ok (false, None)) /\
     db w' !! u = Some row' /\ failed_attempts row' = 0 /\ locked_until row' = None /\
     (password_matches' self p (password_hash row) = true ->
      exists (w'' : world) (row'' : user),
        login' self u p w' = (w'', Ok (true, Some "Login successful")) /\
        db w'' !! u = Some row'' /\
        failed_attempts row'' = 0 /\ locked_until row'' = None)) /\
  (password_matches' self p (password_hash row) = true ->
   exists (w' : world) (row' : user),
     login' self u p w = (w', Ok (true, Some "Login successful")) /\
     db w' !! u = Some row' /\ failed_attempts row' = 0 /\ locked_until row' = None) /\
  (password_matches' self p (password_hash row) = false ->
   exists (w' : world) (answer : option string) (row' : user),
     login' self u p w = (w', Ok (false, answer)) /\
     db w' !! u = Some row' /\ failed_attempts row' = 1) /\
  (forall qs : list string,
     Forall (fun q => password_matches' self q (password_hash row) = false) qs ->
     Z.of_nat (length qs) < max_attempts self ->
     password_matches' self p (password_hash row) = true ->
     let w1 := attempts eks urandom datetime_now current_timestamp self u qs w in
     (qs <> [] ->
      exists row1 : user,
        db w1 !! u = Some row1 /\ Active row1 /\
        failed_attempts row1 = Z.of_nat (length qs)) /\
     (exists (w' : world) (row' : user),
        login' self u p w1 = (w', Ok (true, Some "Login successful")) /\
        db w' !! u = Some row' /\
        failed_attempts row' = 0 /\ locked_until row' = None /\
        last_login row' = Some (current_timestamp (Nat.pred (ticks w'))))).
Proof.
  intros H Hl Ht. split; [| split; [| split]].
  - exists (with_db (alter reset_row u (db w)) (ticked w)), (reset_row row).
    split; [now apply (_is_account_locked_expired self u w row until) |].
    split; [cbn; now rewrite lookup_alter_eq, H |].
    split; [reflexivity |]. split; [reflexivity |].
    intros Hm. eexists _, _.
    rewrite (login_active self u p _ (reset_row row));
      [| cbn; now rewrite lookup_alter_eq, H | reflexivity].
    cbn [password_hash reset_row]. rewrite Hm.
    split; [reflexivity |]. cbn. rewrite lookup_insert_eq. repeat split.
  - intros Hm. eexists _, _.
    rewrite (login_expired self u p w row until H Hl Ht). rewrite Hm.
    split; [reflexivity |]. cbn. rewrite lookup_insert_eq. repeat split.
  - intros Hm.
    rewrite (login_expired self u p w row until H Hl Ht). rewrite Hm.
    unfold login_answer, after_login. cbn [failed_attempts reset_row].
    destruct (max_attempts self <=? 0 + 1);
      (eexists _, _, _; split; [reflexivity |]; cbn; rewrite lookup_insert_eq;
       split; reflexivity).
  - intros qs Hall Hlen Hm. destruct qs as [| q qs].
    + intros w1. split; [congruence |]. subst w1. cbn [attempts].
      rewrite (login_expired self u p w row until H Hl Ht). rewrite Hm.
      eexists _, _. split; [reflexivity |].
      cbn. rewrite lookup_insert_eq, ticks_verified. repeat split.
    + apply Forall_cons in Hall as [Hq Hall]. cbn [length] in Hlen.
      cbn [attempts]. rewrite (login_expired self u q w row until H Hl Ht).
      rewrite Hq. cbn [fst]. unfold after_login. cbn [failed_attempts reset_row].
      replace (max_attempts self <=? 0 + 1) with false
        by (symmetry; apply Z.leb_gt; lia).
      lazymatch goal with
      | |- context [attempts _ _ _ _ self u qs (with_db (<[u := ?r]> _) ?w0)] =>
          destruct (success_after_failures self u p qs
                      (with_db (<[u := r]> (db w)) w0) r) as [Hrow Hlogin]
      end.
      * cbn. apply lookup_insert_eq.
      * reflexivity.
      * exact Hall.
      * cbn [failed_attempts]. lia.
      * exact Hm.
      * cbv zeta. split; [| exact Hlogin].
        intros _. destruct Hrow as (row1 & H1 & Ha1 & Hf1).
        exists row1. cbn [failed_attempts] in Hf1. cbn [length].
        repeat split; try assumption. lia.
Qed.

Lemma hash_cost_issued (self : LoginSystem) (password : string) (w w' : world)
    (h : bytes) :
  _hash_password eks urandom self password w = (w', Ok h) -> hash_cost h = Some 12%N.
Proof.
  rewrite _hash_password_eq. intros [= _ <-]. unfold hash_cost.
  now rewrite parse_salt_hash_string by apply gensalt_salt_ok.
Qed.

(** C7, as amended.  A login for a username that has no record runs one
    dummy key derivation at cost 12, the cost of verifying a hash that
    registration issues, and answers [invalid_credentials]; a login with a
    wrong password for an existing account answers the same and runs the
    same one derivation, provided the account is not locked and this
    failure keeps its count below [max_attempts]. *)
Theorem unknown_user_like_wrong_password (self : LoginSystem) (u1 p1 u2 p2 : string)
    (w1 w2 : world) (row : user) :
  db w1 !! u1 = None ->
  db w2 !! u2 = Some row -> Active row ->
  hash_cost (password_hash row) = Some 12%N ->
  password_matches' self p2 (password_hash row) = false ->
  failed_attempts row + 1 < max_attempts self ->
  exists w1' w2' : world,
    login' self u1 p1 w1 = (w1', Ok invalid_credentials) /\
    login' self u2 p2 w2 = (w2', Ok invalid_credentials) /\
    work w1' = 12%N :: work w1 /\ work w2' = 12%N :: work w2 /\
    db w1' = db w1.
Proof.
  intros H1 H2 Ha Hc Hm Hlt. eexists _, _.
  split; [now apply login_unknown |].
  rewrite (login_active self u2 p2 w2 row H2 Ha). rewrite Hm.
  unfold login_answer, verified. rewrite Hc.
  replace (max_attempts self <=? failed_attempts row + 1) with false
    by (symmetry; apply Z.leb_gt; lia).
  repeat split.
Qed.

(** ** The account invariants *)

Lemma lockout_invariant_account (self : LoginSystem) (r : user) :
  1 <= max_attempts self -> lockout_invariant self r -> account_invariant self r.
Proof.
  unfold lockout_invariant, account_invariant. intros Hmax.
  destruct (locked_until r); intros Hi; split; try lia; congruence.
Qed.

Lemma after_login_invariant (self : LoginSystem) (m : bool) (t1 t2 : Z) (r : user) :
  1 <= max_attempts self -> Active r -> lockout_invariant self r ->
  lockout_invariant self (after_login self m t1 t2 r).
Proof.
  unfold lockout_invariant, after_login, Active. intros Hmax Ha. rewrite Ha. intros Hi.
  destruct m; [cbn; lia |].
  destruct (max_attempts self <=? failed_attempts r + 1) eqn:E; cbn.
  - apply Z.leb_le in E. lia.
  - apply Z.leb_gt in E. lia.
Qed.

Lemma reset_row_invariant (self : LoginSystem) (r : user) :
  1 <= max_attempts self -> lockout_invariant self (reset_row r).
Proof. unfold lockout_invariant. cbn. lia. Qed.

Lemma all_accounts_insert (P : user -> Prop) (w w' : world) (u : string) (r : user) :
  all_accounts P w -> P r -> db w' = <[u := r]> (db w) -> all_accounts P w'.
Proof.
  intros Hall Hr Hdb k r' Hk. rewrite Hdb, lookup_insert in Hk.
  case_decide; [congruence | eauto].
Qed.

Lemma all_accounts_same (P : user -> Prop) (w w' : world) :
  all_accounts P w -> db w' = db w -> all_accounts P w'.
Proof. intros Hall Hdb k r Hk. rewrite Hdb in Hk. eauto. Qed.

Lemma _is_account_locked_invariant (self : LoginSystem) (u : string) (w : world) :
  1 <= max_attempts self ->
  all_accounts (lockout_invariant self) w ->
  all_accounts (lockout_invariant self) (fst (_is_account_locked' self u w)).
Proof.
  intros Hmax Hall.
  destruct (db w !! u) as [row |] eqn:H.
  - destruct (locked_until row) as [until |] eqn:Hl.
    + destruct (Z.lt_ge_cases (datetime_now (ticks w)) until) as [Ht | Ht].
      * rewrite (_is_account_locked_denied self u w row until H Hl Ht).
        now apply all_accounts_same with w.
      * rewrite (_is_account_locked_expired self u w row until H Hl Ht).
        apply all_accounts_insert with w u (reset_row row);
          [exact Hall | now apply reset_row_invariant |].
        cbn. apply map_eq. intros k. rewrite lookup_alter, lookup_insert.
        case_decide; [subst; now rewrite H | reflexivity].
    + rewrite (_is_account_locked_active self u w row H Hl). exact Hall.
  - rewrite (_is_account_locked_absent self u w H). exact Hall.
Qed.

Lemma login_invariant (self : LoginSystem) (u p : string) (w : world) :
  1 <= max_attempts self ->
  all_accounts (lockout_invariant self) w ->
  all_accounts (lockout_invariant self) (fst (login' self u p w)).
Proof.
  intros Hmax Hall.
  destruct (db w !! u) as [row |] eqn:H.
  - destruct (locked_until row) as [until |] eqn:Hl.
    + destruct (Z.lt_ge_cases (datetime_now (ticks w)) until) as [Ht | Ht].
      * rewrite (login_denied self u p w row until H Hl Ht).
        now apply all_accounts_same with w.
      * rewrite (login_expired self u p w row until H Hl Ht).
        eapply all_accounts_insert; [exact Hall | | reflexivity].
        apply after_login_invariant;
          [exact Hmax | reflexivity | now apply reset_row_invariant].
    + rewrite (login_active self u p w row H Hl).
      eapply all_accounts_insert; [exact Hall | | reflexivity].
      apply after_login_invariant; [exact Hmax | exact Hl | now apply (Hall u)].
  - rewrite (login_unknown self u p w H). now apply all_accounts_same with w.
Qed.

Lemma register_db (self : LoginSystem) (u p : string) (w : world) :
  let w' := fst (register eks urandom current_timestamp self u p w) in
  db w' = db w \/
  exists (h : bytes) (t : Z), db w' = <[u := mk_user h 0 None None t None]> (db w).
Proof.
  unfold register.
  destruct (String.length u <? 3)%nat; [now left |].
  destruct (negb (re_match_username u)); [now left |].
  destruct (_validate_password_strength self p) as [is_valid message].
  destruct (negb is_valid); [now left |].
  unfold try_except_any, try_except, bind. rewrite _hash_password_eq.
  unfold insert_user, bind, select_user. cbn [db spent drawn].
  destruct (db w !! u); cbn; [now left |].
  right. eexists _, _. reflexivity.
Qed.

Lemma register_invariant (self : LoginSystem) (u p : string) (w : world) :
  1 <= max_attempts self ->
  all_accounts (lockout_invariant self) w ->
  all_accounts (lockout_invariant self)
    (fst (register eks urandom current_timestamp self u p w)).
Proof.
  intros Hmax Hall.
  destruct (register_db self u p w) as [Hdb | (h & t & Hdb)].
  - now apply all_accounts_same with w.
  - eapply all_accounts_insert; [exact Hall | | exact Hdb].
    unfold lockout_invariant. cbn. lia.
Qed.

Lemma perform_invariant (self : LoginSystem) (o : operation) (w : world) :
  1 <= max_attempts self ->
  all_accounts (lockout_invariant self) w ->
  all_accounts (lockout_invariant self)
    (perform eks urandom datetime_now current_timestamp self o w).
Proof.
  intros Hmax Hall. destruct o as [u p | u p | u]; cbn [perform].
  - now apply register_invariant.
  - now apply login_invariant.
  - now apply _is_account_locked_invariant.
Qed.

Lemma reachable_lockout_invariant (self : LoginSystem) (w : world) :
  1 <= max_attempts self ->
  reachable eks urandom datetime_now current_timestamp self w ->
  all_accounts (lockout_invariant self) w.
Proof.
  intros Hmax Hr. induction Hr as [w Hempty | w o Hr IH].
  - intros u r Hu. rewrite Hempty, lookup_empty in Hu. discriminate.
  - now apply perform_invariant.
Qed.

(** C5.  Along every run of [register], [login] and the admission check
    from an empty table, every account satisfies the invariants
    [0 <= failed_attempts <= max_attempts] and
    [locked_until] set implies [failed_attempts >= max_attempts], before
    and after each operation. *)
Theorem operations_preserve_account_invariants (self : LoginSystem) (w : world)
    (o : operation) :
  1 <= max_attempts self ->
  reachable eks urandom datetime_now current_timestamp self w ->
  all_accounts (account_invariant self) w /\
  all_accounts (account_invariant self)
    (perform eks urandom datetime_now current_timestamp self o w).
Proof.
  intros Hmax Hr. split; intros u r Hu.
  - apply lockout_invariant_account; [exact Hmax |].
    now apply (reachable_lockout_invariant self w Hmax Hr u).
  - apply lockout_invariant_account; [exact Hmax |].
    apply (perform_invariant self o w Hmax (reachable_lockout_invariant self w Hmax Hr) u).
    exact Hu.
Qed.

End Lockout.

(** ** The pepper *)

Section Pepper.

Context (eks : N -> bytes -> bytes -> bytes) (urandom : nat -> N)
        (environ : string -> option string).

Lemma __init___eq (w : world) :
  __init__ urandom environ w
  = (drawn w,
     Ok (mk_LoginSystem "users.db" 3 (minutes 15) 12
           (default (hex_chars 64 (urandom (draws w))) (environ "PASSWORD_PEPPER")))).
Proof. reflexivity. Qed.

Lemma verify_under_equal_pepper (s1 s2 : LoginSystem) (p : string) (w w' : world) :
  pepper s1 = pepper s2 ->
  exists (h : bytes) (w1 w2 : world),
    _hash_password eks urandom s1 p w = (w1, Ok h) /\
    _verify_password eks s2 p h w' = (w2, Ok true).
Proof.
  intros Hk. eexists _, _, _. split; [apply _hash_password_eq |].
  rewrite _verify_password_hash_string by apply gensalt_salt_ok.
  rewrite Hk. now rewrite bool_decide_eq_true_2.
Qed.

(** C8, as amended.  When PASSWORD_PEPPER is set in the environment,
    every instance takes that value as its pepper, and a hash issued by
    one instance is verified by a second instance constructed later (in
    any later world) under the same environment. *)
Theorem configured_pepper_survives_restart (k p : string) (w w' : world) :
  environ "PASSWORD_PEPPER" = Some k ->
  exists (s1 s2 : LoginSystem) (w1 w2 w3 w4 : world) (h : bytes),
    __init__ urandom environ w = (w1, Ok s1) /\
    _hash_password eks urandom s1 p w1 = (w2, Ok h) /\
    __init__ urandom environ w' = (w3, Ok s2) /\
    pepper s1 = k /\ pepper s2 = k /\
    _verify_password eks s2 p h w3 = (w4, Ok true).
Proof.
  intros Hk.
  set (s := mk_LoginSystem "users.db" 3 (minutes 15) 12 k).
  destruct (verify_under_equal_pepper s s p (drawn w) (drawn w') eq_refl)
    as (h & w2 & w4 & Hh & Hv).
  exists s, s, (drawn w), w2, (drawn w'), w4, h.
  rewrite !__init___eq, Hk. cbn [default]. fold s.
  repeat split; assumption.
Qed.

End Pepper.

(** ** Password strength *)

Lemma validate_refines (self : LoginSystem) (password : string) :
  _validate_password_strength self password
  = match validate_strength self password with
    | Some e => (false, error_message self e)
    | None => (true, "Password meets security requirements")
    end.
Proof.
  unfold _validate_password_strength, validate_strength, check_order.
  cbn [List.find fails].
  repeat (match goal with
          | |- context [if ?c then _ else _] => destruct c; cbn [negb error_message]
          end; try reflexivity).
Qed.

(** C9.  [_validate_password_strength] reports the first failing check
    in the order length, uppercase, lowercase, digit, special character,
    banned pattern, each check being made on the password alone; and when
    the minimum is 12, a password of length 11 (whatever characters it
    holds) is reported as too short, by the validation and by [register]
    for every username that passes the username checks, which then stores
    nothing. *)
Theorem validation_reports_first_failure
    (eks : N -> bytes -> bytes -> bytes) (urandom : nat -> N)
    (current_timestamp : nat -> Z) (self : LoginSystem) (password : string) :
  _validate_password_strength self password
  = match validate_strength self password with
    | Some e => (false, error_message self e)
    | None => (true, "Password meets security requirements")
    end /\
  (String.length password = 11%nat -> min_password_length self = 12 ->
   validate_strength self password = Some TooShort /\
   forall (username : string) (w : world),
     (3 <= String.length username)%nat -> re_match_username username = true ->
     register eks urandom current_timestamp self username password w
     = (w, Ok (false, "Password must be at least 12 characters long"))).
Proof.
  split; [apply validate_refines |].
  intros Hlen Hmin.
  assert (Hv : validate_strength self password = Some TooShort).
  { unfold validate_strength, check_order. cbn [List.find fails].
    now rewrite Hlen, Hmin. }
  split; [exact Hv |].
  intros username w Hu Hre. unfold register.
  replace (String.length username <? 3)%nat with false
    by (symmetry; apply Nat.ltb_ge; lia).
  rewrite Hre. cbn [negb]. rewrite validate_refines, Hv.
  cbn [negb error_message]. now rewrite Hmin.
Qed.

(** * The properties on a concrete run *)

Lemma world_registered_alice : db world_registered !! "alice" = Some row_registered.
Proof. vm_compute. reflexivity. Defined.

Lemma world_locked_alice : db world_locked !! "alice" = Some row_locked.
Proof. vm_compute. reflexivity. Defined.

Lemma wrong_passwords_rejected :
  Forall (fun q => password_matches eks_id system0 q alice_hash = false)
         ["wrong3"; "wrong1"; "wrong2"].
Proof. repeat constructor. Defined.

(** C2 on the run: two failures leave alice active with a count of 2, the
    third stores 3 and locks her until 903 s. *)
Lemma failed_logins_lock_at_threshold_witness :
  (exists row1 : user,
     db world_two_failures !! "alice" = Some row1 /\ Active row1 /\
     failed_attempts row1 = 2) /\
  (exists (w2 : world) (answer : option string) (row2 : user),
     login0 "alice" "wrong3" world_two_failures = (w2, Ok (false, answer)) /\
     db w2 !! "alice" = Some row2 /\
     failed_attempts row2 = 3 /\ locked_until row2 = Some 903000000).
Proof.
  destruct (failed_logins_lock_at_threshold eks_id urandom_count clock_seconds
              clock_seconds system0 "alice" "wrong3" ["wrong1"; "wrong2"]
              world_registered row_registered
              world_registered_alice eq_refl wrong_passwords_rejected) as [_ Hrun].
  exact (Hrun eq_refl).
Defined.

(** C3 on the run: read at 1000 s, alice's lock (until 903 s) is over;
    her right password logs her in and clears the record; and when she
    first mistypes once, the count stands at 1 on an active account and
    her right password then clears it. *)
Lemma expired_lock_is_reset_witness :
  903000000 <= clock_seconds (ticks world_later) /\
  (exists (w' : world) (row' : user),
     login0 "alice" "Str0ng!Passw0rd" world_later
     = (w', Ok (true, Some "Login successful")) /\
     db w' !! "alice" = Some row' /\
     failed_attempts row' = 0 /\ locked_until row' = None) /\
  (let w1 := attempts eks_id urandom_count clock_seconds clock_seconds system0 "alice"
               ["wrong4"] world_later in
   (exists row1 : user,
      db w1 !! "alice" = Some row1 /\ Active row1 /\ failed_attempts row1 = 1) /\
   (exists (w' : world) (row' : user),
      login0 "alice" "Str0ng!Passw0rd" w1 = (w', Ok (true, Some "Login successful")) /\
      db w' !! "alice" = Some row' /\
      failed_attempts row' = 0 /\ locked_until row' = None /\
      last_login row' = Some (clock_seconds (Nat.pred (ticks w'))))).
Proof.
  assert (Ht : 903000000 <= clock_seconds (ticks world_later))
    by (vm_compute; discriminate).
  split; [exact Ht |].
  destruct (expired_lock_is_reset eks_id urandom_count clock_seconds clock_seconds
              system0 "alice" "Str0ng!Passw0rd" world_later row_locked 903000000
              world_locked_alice eq_refl Ht) as (_ & Hright & _ & Hlater).
  split; [apply Hright; vm_compute; reflexivity |].
  destruct (Hlater ["wrong4"]) as [Hcount Hlogin].
  - repeat constructor.
  - vm_compute. reflexivity.
  - vm_compute. reflexivity.
  - split; [apply Hcount; discriminate | exact Hlogin].
Defined.

Lemma reachable_two_failures :
  reachable eks_id urandom_count clock_seconds clock_seconds system0 world_two_failures.
Proof.
  apply (reachable_step _ _ _ _ system0 _ (Login "alice" "wrong2")).
  apply (reachable_step _ _ _ _ system0 _ (Login "alice" "wrong1")).
  apply (reachable_step _ _ _ _ system0 _ (Register "alice" "Str0ng!Passw0rd")).
  now apply reachable_empty.
Defined.

(** C5 on the run: the record of alice, locked by her third failure,
    satisfies the invariants. *)
Lemma operations_preserve_account_invariants_witness :
  db world_locked !! "alice" = Some row_locked /\ account_invariant system0 row_locked.
Proof.
  split; [exact world_locked_alice |].
  assert (Hmax : 1 <= max_attempts system0) by (vm_compute; discriminate).
  destruct (operations_preserve_account_invariants eks_id urandom_count clock_seconds
              clock_seconds system0 world_two_failures (Login "alice" "wrong3")
              Hmax reachable_two_failures) as [_ Hafter].
  exact (Hafter "alice" row_locked world_locked_alice).
Defined.

(** C6 on the run: at 4 s alice is locked until 903 s; every password,
    the right one too, is answered with the lock, and nothing changes. *)
Lemma login_while_locked_witness :
  clock_seconds (ticks world_locked) < 903000000 /\
  exists w' : world,
    (forall p : string,
       login0 "alice" p world_locked
       = (w', Ok (false, Some "Account is locked. Try again in 14 minutes"))) /\
    work w' = work world_locked /\ db w' = db world_locked.
Proof.
  assert (Ht : clock_seconds (ticks world_locked) < 903000000)
    by (vm_compute; reflexivity).
  split; [exact Ht |].
  destruct (login_while_locked eks_id urandom_count clock_seconds clock_seconds
              system0 "alice" world_locked row_locked 903000000
              world_locked_alice eq_refl Ht) as (w' & Hlogin & Hwork & Hdb & _).
  exists w'. split; [exact Hlogin | split; assumption].
Defined.

(** C7 on the run: an unknown user and alice with a wrong password (her
    first failure) get the same answer for the same work. *)
Lemma unknown_user_like_wrong_password_witness :
  exists w1' w2' : world,
    login0 "nobody" "guess" world_registered = (w1', Ok invalid_credentials) /\
    login0 "alice" "guess" world_registered = (w2', Ok invalid_credentials) /\
    work w1' = 12%N :: work world_registered /\
    work w2' = 12%N :: work world_registered /\
    db w1' = db world_registered.
Proof.
  apply (unknown_user_like_wrong_password eks_id urandom_count clock_seconds
           clock_seconds system0 "nobody" "guess" "alice" "guess"
           world_registered world_registered row_registered).
  - vm_compute. reflexivity.
  - exact world_registered_alice.
  - reflexivity.
  - vm_compute. reflexivity.
  - vm_compute. reflexivity.
  - vm_compute. reflexivity.
Defined.

(** C7 as stated fails: on her third wrong password alice is told that
    the account is locked, an unknown user that the credentials are
    invalid. *)
Lemma third_wrong_password_counterexample :
  db world_two_failures !! "nobody" = None /\
  is_Some (db world_two_failures !! "alice") /\
  password_matches eks_id system0 "wrong3" alice_hash = false /\
  snd (login0 "nobody" "wrong3" world_two_failures) = Ok invalid_credentials /\
  snd (login0 "alice" "wrong3" world_two_failures)
  = Ok (false, Some "Account locked due to too many failed attempts. Try again in 15 minutes") /\
  snd (login0 "alice" "wrong3" world_two_failures)
  <> snd (login0 "nobody" "wrong3" world_two_failures).
Proof.
  split; [vm_compute; reflexivity |].
  split; [vm_compute; eexists; reflexivity |].
  split; [vm_compute; reflexivity |].
  split; [vm_compute; reflexivity |].
  split; [vm_compute; reflexivity |].
  vm_compute. discriminate.
Qed.

(** C8 on an environment that sets the pepper. *)
Lemma configured_pepper_survives_restart_witness :
  environ_pepper "PASSWORD_PEPPER" = Some "s3cret-pepper" /\
  exists (s1 s2 : LoginSystem) (w1 w2 w3 w4 : world) (h : bytes),
    __init__ urandom_count environ_pepper world0 = (w1, Ok s1) /\
    _hash_password eks_id urandom_count s1 "Str0ng!Passw0rd" w1 = (w2, Ok h) /\
    __init__ urandom_count environ_pepper world_locked = (w3, Ok s2) /\
    pepper s1 = "s3cret-pepper" /\ pepper s2 = "s3cret-pepper" /\
    _verify_password eks_id s2 "Str0ng!Passw0rd" h w3 = (w4, Ok true).
Proof.
  split; [reflexivity |].
  exact (configured_pepper_survives_restart eks_id urandom_count environ_pepper
           "s3cret-pepper" "Str0ng!Passw0rd" world0 world_locked eq_refl).
Defined.

(** C8 as stated fails: with no PASSWORD_PEPPER in the environment, two
    instances draw two peppers; the second then verifies a hash issued by
    the first only if bcrypt's digests of two different keys coincide, and
    with the stand-in derivation it answers [False]. *)
Lemma unconfigured_pepper_counterexample :
  exists (s1 s2 : LoginSystem) (w1 w2 w3 : world),
    environ_empty "PASSWORD_PEPPER" = None /\
    __init__ urandom_count environ_empty world0 = (w1, Ok s1) /\
    __init__ urandom_count environ_empty w2 = (w3, Ok s2) /\
    pepper s1 <> pepper s2 /\
    bcrypt_key "Str0ng!Passw0rd" (pepper s1) <> bcrypt_key "Str0ng!Passw0rd" (pepper s2) /\
    (forall eks : N -> bytes -> bytes -> bytes,
       exists (h : bytes) (w4 : world) (salt22 : bytes),
         _hash_password eks urandom_count s1 "Str0ng!Passw0rd" w1 = (w2, Ok h) /\
         _verify_password eks s2 "Str0ng!Passw0rd" h w3
         = (w4, Ok (bool_decide
                      (eks 12%N salt22 (bcrypt_key "Str0ng!Passw0rd" (pepper s2))
                       = eks 12%N salt22 (bcrypt_key "Str0ng!Passw0rd" (pepper s1)))))) /\
    (exists (h : bytes) (w4 : world),
       _hash_password eks_id urandom_count s1 "Str0ng!Passw0rd" w1 = (w2, Ok h) /\
       _verify_password eks_id s2 "Str0ng!Passw0rd" h w3 = (w4, Ok false)).
Proof.
  eexists _, _, (drawn world0), (spent 12 (drawn (drawn world0))), _.
  split; [reflexivity |]. split; [reflexivity |]. split; [reflexivity |].
  split; [vm_compute; discriminate |].
  split; [vm_compute; discriminate |].
  split.
  - intros eks. eexists _, _, _. split; [apply _hash_password_eq |].
    now rewrite _verify_password_hash_string by apply gensalt_salt_ok.
  - eexists _, _. split; [apply _hash_password_eq |].
    rewrite _verify_password_hash_string by apply gensalt_salt_ok.
    vm_compute. reflexivity.
Qed.

Lemma long_passwords_same_key (k : string) :
  bcrypt_key long_password_y k = bcrypt_key long_password_x k.
Proof. unfold bcrypt_key. rewrite !encode_utf8_app. reflexivity. Qed.

(** C4 as stated fails: two different passwords that agree on their
    first 72 bytes verify against each other's hashes, whatever the
    pepper, the salt and the key derivation. *)
Lemma long_passwords_counterexample :
  long_password_x <> long_password_y /\
  String.length long_password_x = 73%nat /\
  forall (eks : N -> bytes -> bytes -> bytes) (urandom : nat -> N)
         (self : LoginSystem) (w : world),
  exists (h : bytes) (w1 w2 : world),
    _hash_password eks urandom self long_password_x w = (w1, Ok h) /\
    _verify_password eks self long_password_y h w1 = (w2, Ok true).
Proof.
  split; [vm_compute; discriminate |]. split; [reflexivity |].
  intros eks urandom self w.
  eexists _, _, _. split; [apply _hash_password_eq |].
  rewrite _verify_password_hash_string by apply gensalt_salt_ok.
  rewrite long_passwords_same_key. now rewrite bool_decide_eq_true_2.
Qed.

(** C9 on an example: eleven characters of every class. *)
Lemma validation_reports_first_failure_witness :
  String.length "Abcdefgh1!x" = 11%nat /\
  validate_strength system0 "Abcdefgh1!x" = Some TooShort /\
  register eks_id urandom_count clock_seconds system0 "alice" "Abcdefgh1!x" world0
  = (world0, Ok (false, "Password must be at least 12 characters long")).
Proof.
  split; [reflexivity |].
  destruct (validation_reports_first_failure eks_id urandom_count clock_seconds
              system0 "Abcdefgh1!x") as [_ Hshort].
  destruct (Hshort eq_refl eq_refl) as [Hv Hreg].
  split; [exact Hv |]. apply Hreg; [vm_compute; lia | reflexivity].
Defined.

(** C10 on an example: bytes that are no hash at all. *)
Lemma verify_never_raises_witness :
  exists w' : world,
    _verify_password eks_id system0 "Str0ng!Passw0rd" (bytes_of "not-a-hash") world0
    = (w', Ok false).
Proof.
  apply (verify_never_raises eks_id system0 "Str0ng!Passw0rd" (bytes_of "not-a-hash")
           world0).
  intros pw salt w1 w2. unfold hashpw.
  destruct (parse_salt salt) as [[[v cost] salt22] |]; discriminate.
Defined.

(** * Further properties of the program *)

(** ** Who gets in *)

Section Authentication.

Context (eks : N -> bytes -> bytes -> bytes) (urandom : nat -> N)
        (datetime_now current_timestamp : nat -> Z).

Local Abbreviation login' := (login eks urandom datetime_now current_timestamp).
Local Abbreviation register' := (register eks urandom current_timestamp).
Local Abbreviation _is_account_locked' := (_is_account_locked datetime_now).
Local Abbreviation password_matches' := (password_matches eks).
Local Abbreviation perform' := (perform eks urandom datetime_now current_timestamp).
Local Abbreviation attempts' := (attempts eks urandom datetime_now current_timestamp).

Lemma login_answer_true (self : LoginSystem) (m : bool) (r : user) (ok : option string) :
  login_answer self m r = (true, ok) -> m = true /\ ok = Some "Login successful".
Proof.
  unfold login_answer, invalid_credentials.
  destruct m; [intros [= <-]; auto |].
  destruct (max_attempts self <=? failed_attempts r + 1); discriminate.
Qed.

(** X1.  [login] answers [True] exactly when the username has a record,
    the password verifies against the stored hash, and the record carries
    no lock that is still running at the time of the call. *)
Theorem login_succeeds_iff (self : LoginSystem) (u p : string) (w : world) :
  (exists (w' : world) (message : option string),
     login' self u p w = (w', Ok (true, message))) <->
  (exists row : user,
     db w !! u = Some row /\
     password_matches' self p (password_hash row) = true /\
     match locked_until row with
     | None => True
     | Some until => until <= datetime_now (ticks w)
     end).
Proof.
  split.
  - intros (w' & message & Hlogin).
    destruct (db w !! u) as [row |] eqn:H.
    + exists row. split; [reflexivity |].
      destruct (locked_until row) as [until |] eqn:Hl.
      * destruct (Z.lt_ge_cases (datetime_now (ticks w)) until) as [Ht | Ht].
        -- rewrite (login_denied eks urandom datetime_now current_timestamp
                      self u p w row until H Hl Ht) in Hlogin. discriminate.
        -- rewrite (login_expired eks urandom datetime_now current_timestamp
                      self u p w row until H Hl Ht) in Hlogin.
           injection Hlogin as _ Ha. apply login_answer_true in Ha as [Hm _].
           split; [exact Hm | exact Ht].
      * rewrite (login_active eks urandom datetime_now current_timestamp
                   self u p w row H Hl) in Hlogin.
        injection Hlogin as _ Ha. apply login_answer_true in Ha as [Hm _].
        split; [exact Hm | exact I].
    + rewrite (login_unknown eks urandom datetime_now current_timestamp self u p w H)
        in Hlogin. discriminate.
  - intros (row & H & Hm & Hlock).
    destruct (locked_until row) as [until |] eqn:Hl.
    + rewrite (login_expired eks urandom datetime_now current_timestamp
                 self u p w row until H Hl Hlock). rewrite Hm. eauto.
    + rewrite (login_active eks urandom datetime_now current_timestamp
                 self u p w row H Hl). rewrite Hm. eauto.
Qed.

(** X2.  A right password on an account that is not locked logs in
    whatever the count of earlier failures: the answer is success, the
    count goes back to 0, no lock is set, the stored hash stays, and one
    verification was run. *)
Theorem login_success_resets (self : LoginSystem) (u p : string) (w : world)
    (row : user) :
  db w !! u = Some row -> Active row ->
  password_matches' self p (password_hash row) = true ->
  exists (w' : world) (row' : user),
    login' self u p w = (w', Ok (true, Some "Login successful")) /\
    db w' !! u = Some row' /\
    failed_attempts row' = 0 /\ locked_until row' = None /\
    password_hash row' = password_hash row /\
    last_login row' = Some (current_timestamp (ticks w)) /\
    work w' = work (verified (password_hash row) w).
Proof.
  intros H Ha Hm.
  rewrite (login_active eks urandom datetime_now current_timestamp self u p w row H Ha).
  rewrite Hm. eexists _, _. split; [reflexivity |].
  cbn. rewrite lookup_insert_eq. repeat split.
Qed.

(** X3.  While an account is locked and the clock readings stay
    before [locked_until], no sequence of logins, with whatever passwords,
    gets anything checked or changed: the table and the list of key
    derivations stay as they are, and each login only reads the clock
    twice. *)
Theorem lockout_resists_guessing (self : LoginSystem) (u : string) (ps : list string)
    (w : world) (row : user) (until : Z) :
  db w !! u = Some row -> Locked row until ->
  (forall n : nat,
     (ticks w <= n < ticks w + 2 * length ps)%nat -> datetime_now n < until) ->
  db (attempts' self u ps w) = db w /\
  work (attempts' self u ps w) = work w /\
  ticks (attempts' self u ps w) = (ticks w + 2 * length ps)%nat.
Proof.
  revert w. induction ps as [| q ps IH]; intros w H Hl Hclock.
  - cbn. repeat split. lia.
  - cbn [attempts length] in *.
    rewrite (login_denied eks urandom datetime_now current_timestamp
               self u q w row until H Hl (Hclock (ticks w) ltac:(lia))).
    cbn [fst].
    destruct (IH (ticked (ticked w))) as (Hdb & Hwork & Hticks).
    + exact H.
    + exact Hl.
    + intros n Hn. apply Hclock. cbn in Hn. lia.
    + rewrite Hdb, Hwork, Hticks. cbn. repeat split. lia.
Qed.

(** ** Registration *)

Lemma password_matches_issued (self : LoginSystem) (p : string) (v : ascii) (cost : N)
    (salt22 : bytes) :
  salt_ok v cost salt22 ->
  password_matches' self p
    (hash_string v cost salt22 (eks cost salt22 (bcrypt_key p (pepper self)))) = true.
Proof.
  intros Hok. unfold password_matches. rewrite parse_salt_hash_string by exact Hok.
  now apply bool_decide_eq_true_2.
Qed.

Lemma register_valid (self : LoginSystem) (u p : string) (w : world) :
  (3 <= String.length u)%nat -> re_match_username u = true ->
  validate_strength self p = None ->
  register' self u p w
  = match db w !! u with
    | Some _ => (spent 12 (drawn w), Ok (false, "Username already exists"))
    | None =>
        (with_db (<[u := mk_user (issued_hash eks urandom self p w) 0 None None
                            (current_timestamp (ticks w)) None]> (db w))
           (ticked (spent 12 (drawn w))),
         Ok (true, "Registration successful"))
    end.
Proof.
  intros Hlen Hre Hv. unfold register.
  replace (String.length u <? 3)%nat with false by (symmetry; apply Nat.ltb_ge; lia).
  rewrite Hre, validate_refines, Hv. cbn [negb].
  unfold try_except_any, try_except, bind. rewrite _hash_password_eq.
  unfold insert_user, bind, select_user. cbn [db spent drawn].
  destruct (db w !! u); reflexivity.
Qed.

Lemma register_invalid (self : LoginSystem) (u p : string) (w : world) :
  (String.length u < 3)%nat \/ re_match_username u = false \/
  validate_strength self p <> None ->
  exists message : string, register' self u p w = (w, Ok (false, message)).
Proof.
  intros Hbad. unfold register.
  destruct (String.length u <? 3)%nat eqn:Hlen; [eauto |].
  destruct (re_match_username u) eqn:Hre; cbn [negb]; [| eauto].
  rewrite validate_refines.
  destruct (validate_strength self p) as [e |]; cbn [negb]; [eauto |].
  apply Nat.ltb_ge in Hlen. destruct Hbad as [Hb | [Hb | Hb]]; [lia | discriminate | congruence].
Qed.

(** X4.  [register] answers [True] exactly when the username has at
    least 3 characters and the allowed shape, the password passes every
    strength check, and the table has no record under that username. *)
Theorem register_succeeds_iff (self : LoginSystem) (u p : string) (w : world) :
  (exists (w' : world) (message : string),
     register' self u p w = (w', Ok (true, message))) <->
  ((3 <= String.length u)%nat /\ re_match_username u = true /\
   validate_strength self p = None /\ db w !! u = None).
Proof.
  split.
  - intros (w' & message & Hreg).
    destruct (Nat.lt_ge_cases (String.length u) 3) as [Hlen | Hlen].
    { destruct (register_invalid self u p w (or_introl Hlen)) as [m Hm].
      rewrite Hm in Hreg. discriminate. }
    destruct (re_match_username u) eqn:Hre.
    2: { destruct (register_invalid self u p w (or_intror (or_introl Hre))) as [m Hm].
         rewrite Hm in Hreg. discriminate. }
    destruct (validate_strength self p) as [e |] eqn:Hv.
    { destruct (register_invalid self u p w) as [m Hm];
        [right; right; congruence | rewrite Hm in Hreg; discriminate]. }
    rewrite (register_valid self u p w Hlen Hre Hv) in Hreg.
    destruct (db w !! u); [discriminate | auto].
  - intros (Hlen & Hre & Hv & Hfree).
    rewrite (register_valid self u p w Hlen Hre Hv), Hfree. eauto.
Qed.

(** X5.  A registration that goes through stores one new record under
    the username and touches nothing else: the record starts active with
    no failed attempts, its hash was issued at cost 12 and verifies the
    password just given, and one key derivation was run. *)
Theorem register_success (self : LoginSystem) (u p : string) (w : world) :
  (3 <= String.length u)%nat -> re_match_username u = true ->
  validate_strength self p = None -> db w !! u = None ->
  exists (w' : world) (row : user),
    register' self u p w = (w', Ok (true, "Registration successful")) /\
    db w' = <[u := row]> (db w) /\
    failed_attempts row = 0 /\ locked_until row = None /\
    hash_cost (password_hash row) = Some 12%N /\
    password_matches' self p (password_hash row) = true /\
    work w' = 12%N :: work w.
Proof.
  intros Hlen Hre Hv Hfree.
  rewrite (register_valid self u p w Hlen Hre Hv), Hfree.
  eexists _, _. split; [reflexivity |]. split; [reflexivity |].
  cbn [failed_attempts locked_until password_hash]. unfold issued_hash.
  split; [reflexivity |]. split; [reflexivity |].
  split; [| split; [apply password_matches_issued, gensalt_salt_ok | reflexivity]].
  unfold hash_cost. now rewrite parse_salt_hash_string by apply gensalt_salt_ok.
Qed.

(** X6.  Registering a username that already has a record is refused
    with "Username already exists" and leaves the table as it is, the
    existing record and its hash included; the new password was hashed all
    the same, before the insertion failed. *)
Theorem register_duplicate (self : LoginSystem) (u p : string) (w : world) (row : user) :
  (3 <= String.length u)%nat -> re_match_username u = true ->
  validate_strength self p = None -> db w !! u = Some row ->
  exists w' : world,
    register' self u p w = (w', Ok (false, "Username already exists")) /\
    db w' = db w /\ work w' = 12%N :: work w.
Proof.
  intros Hlen Hre Hv Htaken.
  rewrite (register_valid self u p w Hlen Hre Hv), Htaken.
  eexists. repeat split.
Qed.

(** X7.  A registration refused for its username or for the strength of
    its password has no effect at all: nothing is hashed, drawn or
    stored. *)
Theorem register_rejection_has_no_effect (self : LoginSystem) (u p : string) (w : world) :
  (String.length u < 3)%nat \/ re_match_username u = false \/
  validate_strength self p <> None ->
  exists message : string, register' self u p w = (w, Ok (false, message)).
Proof.
  intros Hbad. destruct (register_invalid self u p w Hbad) as [message Hreg].
  exists message. exact Hreg.
Qed.

(** X8.  Registration and login round trip: right after a registration
    that went through, a login with the same username and password
    succeeds, and leaves the account active with no failed attempts. *)
Theorem register_then_login (self : LoginSystem) (u p : string) (w : world) :
  (3 <= String.length u)%nat -> re_match_username u = true ->
  validate_strength self p = None -> db w !! u = None ->
  exists (w1 w2 : world) (row : user),
    register' self u p w = (w1, Ok (true, "Registration successful")) /\
    login' self u p w1 = (w2, Ok (true, Some "Login successful")) /\
    db w2 !! u = Some row /\ failed_attempts row = 0 /\ locked_until row = None.
Proof.
  intros Hlen Hre Hv Hfree.
  rewrite (register_valid self u p w Hlen Hre Hv), Hfree.
  set (row := mk_user (issued_hash eks urandom self p w) 0 None None (current_timestamp (ticks w)) None).
  set (w1 := with_db (<[u := row]> (db w)) (ticked (spent 12 (drawn w)))).
  assert (H1 : db w1 !! u = Some row) by apply lookup_insert_eq.
  eexists w1, _, _. split; [reflexivity |].
  rewrite (login_active eks urandom datetime_now current_timestamp self u p w1 row H1 eq_refl).
  assert (Hm : password_matches' self p (password_hash row) = true)
    by apply password_matches_issued, gensalt_salt_ok.
  rewrite Hm. split; [reflexivity |].
  cbn [db with_db]. rewrite lookup_insert_eq. repeat split.
Qed.

(** ** What the operations leave alone *)

Lemma after_login_hash (self : LoginSystem) (m : bool) (t1 t2 : Z) (r : user) :
  password_hash (after_login self m t1 t2 r) = password_hash r.
Proof.
  unfold after_login. destruct m; [reflexivity |].
  now destruct (max_attempts self <=? failed_attempts r + 1).
Qed.

Lemma alter_reset_row (u : string) (d : gmap string user) (row : user) :
  d !! u = Some row -> alter reset_row u d = <[u := reset_row row]> d.
Proof.
  intros H. apply map_eq. intros k. rewrite lookup_alter, lookup_insert.
  case_decide; [subst; now rewrite H | reflexivity].
Qed.

Lemma _is_account_locked_step (self : LoginSystem) (u : string) (w : world) :
  table_step u (db w) (db (fst (_is_account_locked' self u w))).
Proof.
  destruct (db w !! u) as [row |] eqn:H.
  - destruct (locked_until row) as [until |] eqn:Hl.
    + destruct (Z.lt_ge_cases (datetime_now (ticks w)) until) as [Ht | Ht].
      * rewrite (_is_account_locked_denied datetime_now self u w row until H Hl Ht).
        now left.
      * rewrite (_is_account_locked_expired datetime_now self u w row until H Hl Ht).
        right. left. exists row, (reset_row row).
        split; [exact H |]. split; [now apply alter_reset_row | reflexivity].
    + rewrite (_is_account_locked_active datetime_now self u w row H Hl). now left.
  - rewrite (_is_account_locked_absent datetime_now self u w H). now left.
Qed.

Lemma login_step (self : LoginSystem) (u p : string) (w : world) :
  table_step u (db w) (db (fst (login' self u p w))).
Proof.
  destruct (db w !! u) as [row |] eqn:H.
  - destruct (locked_until row) as [until |] eqn:Hl.
    + destruct (Z.lt_ge_cases (datetime_now (ticks w)) until) as [Ht | Ht].
      * rewrite (login_denied eks urandom datetime_now current_timestamp
                   self u p w row until H Hl Ht). now left.
      * rewrite (login_expired eks urandom datetime_now current_timestamp
                   self u p w row until H Hl Ht).
        right. left. eexists row, _. split; [exact H |].
        split; [reflexivity |]. now rewrite after_login_hash.
    + rewrite (login_active eks urandom datetime_now current_timestamp
                 self u p w row H Hl).
      right. left. eexists row, _. split; [exact H |].
      split; [reflexivity |]. now rewrite after_login_hash.
  - rewrite (login_unknown eks urandom datetime_now current_timestamp self u p w H).
    now left.
Qed.

Lemma register_step (self : LoginSystem) (u p : string) (w : world) :
  table_step u (db w) (db (fst (register' self u p w))).
Proof.
  destruct (Nat.lt_ge_cases (String.length u) 3) as [Hlen | Hlen].
  { destruct (register_invalid self u p w (or_introl Hlen)) as [m ->]. now left. }
  destruct (re_match_username u) eqn:Hre.
  2: { destruct (register_invalid self u p w (or_intror (or_introl Hre))) as [m ->].
       now left. }
  destruct (validate_strength self p) as [e |] eqn:Hv.
  { destruct (register_invalid self u p w) as [m ->];
      [right; right; congruence | now left]. }
  rewrite (register_valid self u p w Hlen Hre Hv).
  destruct (db w !! u) as [row |] eqn:H; [now left |].
  right. right. eexists. split; [exact H |]. split; [reflexivity |].
  cbn [password_hash]. unfold hash_cost, issued_hash. cbv zeta.
  now rewrite parse_salt_hash_string by apply gensalt_salt_ok.
Qed.

Lemma perform_step (self : LoginSystem) (o : operation) (w : world) :
  table_step (target o) (db w) (db (perform' self o w)).
Proof.
  destruct o as [u p | u p | u]; cbn [perform target].
  - apply register_step.
  - apply login_step.
  - apply _is_account_locked_step.
Qed.

(** X9.  An operation on one username leaves the record of every other
    username exactly as it was. *)
Theorem operations_touch_one_account (self : LoginSystem) (o : operation) (w : world)
    (other : string) :
  other <> target o ->
  db (perform' self o w) !! other = db w !! other.
Proof.
  intros Hne.
  destruct (perform_step self o w)
    as [-> | [(row & row' & _ & -> & _) | (row' & _ & -> & _)]];
    [reflexivity | |]; now rewrite lookup_insert_ne.
Qed.

(** X10.  No operation removes an account or replaces its password
    hash: a record that is in the table is still there afterwards, under
    the same hash. *)
Theorem operations_keep_hash (self : LoginSystem) (o : operation) (w : world)
    (u : string) (row : user) :
  db w !! u = Some row ->
  exists row' : user,
    db (perform' self o w) !! u = Some row' /\
    password_hash row' = password_hash row.
Proof.
  intros H.
  destruct (perform_step self o w)
    as [-> | [(r & r' & Hr & -> & Hh) | (r' & Hr & -> & _)]].
  - exists row. auto.
  - destruct (decide (target o = u)) as [<- | Hne].
    + exists r'. rewrite lookup_insert_eq. split; [reflexivity | congruence].
    + exists row. now rewrite lookup_insert_ne.
  - destruct (decide (target o = u)) as [<- | Hne]; [congruence |].
    exists row. now rewrite lookup_insert_ne.
Qed.

(** X11.  Along every run from an empty table, every stored hash
    carries cost 12: verifying against any account costs what the dummy
    hash for an unknown username costs. *)
Theorem stored_hashes_cost_12 (self : LoginSystem) (w : world) :
  reachable eks urandom datetime_now current_timestamp self w ->
  all_accounts (fun r => hash_cost (password_hash r) = Some 12%N) w.
Proof.
  intros Hr. induction Hr as [w Hempty | w o Hr IH].
  - intros u r Hu. rewrite Hempty, lookup_empty in Hu. discriminate.
  - intros u r Hu.
    destruct (perform_step self o w)
      as [Hdb | [(r0 & r' & Hr0 & Hdb & Hh) | (r' & Hr0 & Hdb & Hc)]];
      rewrite Hdb in Hu.
    + now apply (IH u).
    + rewrite lookup_insert in Hu. case_decide.
      * injection Hu as <-. rewrite Hh. now apply (IH (target o)).
      * now apply (IH u).
    + rewrite lookup_insert in Hu. case_decide.
      * now injection Hu as <-.
      * now apply (IH u).
Qed.

(** X12.  Once the admission check has let a username through, checking
    again lets it through again without reading the clock or writing
    anything: the lazy reset happens once. *)
Theorem admission_check_idempotent (self : LoginSystem) (u : string) (w w' : world) :
  _is_account_locked' self u w = (w', Ok (false, None)) ->
  _is_account_locked' self u w' = (w', Ok (false, None)).
Proof.
  intros Hcheck.
  destruct (db w !! u) as [row |] eqn:H.
  - destruct (locked_until row) as [until |] eqn:Hl.
    + destruct (Z.lt_ge_cases (datetime_now (ticks w)) until) as [Ht | Ht].
      * rewrite (_is_account_locked_denied datetime_now self u w row until H Hl Ht)
          in Hcheck. discriminate.
      * rewrite (_is_account_locked_expired datetime_now self u w row until H Hl Ht)
          in Hcheck. injection Hcheck as <-.
        apply (_is_account_locked_active datetime_now self u _ (reset_row row));
          [| reflexivity].
        cbn. now rewrite lookup_alter_eq, H.
    + rewrite (_is_account_locked_active datetime_now self u w row H Hl) in Hcheck.
      injection Hcheck as <-.
      now apply (_is_account_locked_active datetime_now self u w row).
  - rewrite (_is_account_locked_absent datetime_now self u w H) in Hcheck.
    injection Hcheck as <-. now apply _is_account_locked_absent.
Qed.

End Authentication.

(** ** Password strength and usernames *)

(** X13.  The validation accepts a password exactly when it has the
    minimum length, holds an uppercase letter, a lowercase letter, a digit
    and a special character, and its lowercase form contains none of the
    banned patterns. *)
Theorem validation_accepts_iff (self : LoginSystem) (password : string) :
  fst (_validate_password_strength self password) = true <->
  (min_password_length self <= Z.of_nat (String.length password) /\
   re_search_class (in_range "A" "Z") password = true /\
   re_search_class (in_range "a" "z") password = true /\
   re_search_class (in_range "0" "9") password = true /\
   re_search_class is_special password = true /\
   forall pattern : string,
     In pattern banned_patterns -> str_contains pattern (lower password) = false).
Proof.
  unfold _validate_password_strength, banned_patterns.
  destruct (Z.of_nat (String.length password) <? min_password_length self) eqn:E1.
  { apply Z.ltb_lt in E1. cbn. split; [discriminate | intros (H & _); lia]. }
  apply Z.ltb_ge in E1.
  destruct (re_search_class (in_range "A" "Z") password); cbn [negb];
    [| cbn; split; [discriminate | intros (_ & H & _); discriminate]].
  destruct (re_search_class (in_range "a" "z") password); cbn [negb];
    [| cbn; split; [discriminate | intros (_ & _ & H & _); discriminate]].
  destruct (re_search_class (in_range "0" "9") password); cbn [negb];
    [| cbn; split; [discriminate | intros (_ & _ & _ & H & _); discriminate]].
  destruct (re_search_class is_special password); cbn [negb];
    [| cbn; split; [discriminate | intros (_ & _ & _ & _ & H & _); discriminate]].
  destruct (existsb _ _) eqn:E6; cbn [fst].
  - split; [discriminate |]. intros (_ & _ & _ & _ & _ & Hnone).
    apply existsb_exists in E6 as (pattern & Hin & Hc).
    rewrite (Hnone pattern Hin) in Hc. discriminate.
  - split; [| reflexivity]. intros _. repeat split; try assumption.
    intros pattern Hin.
    destruct (str_contains pattern (lower password)) eqn:Hc; [| reflexivity].
    assert (Hex : existsb (fun pattern => str_contains pattern (lower password))
                    ["password"; "123"; "qwerty"; "admin"] = true)
      by (apply existsb_exists; eauto).
    congruence.
Qed.

Lemma lower_app (s1 s2 : string) : lower (s1 +:+ s2) = lower s1 +:+ lower s2.
Proof. induction s1 as [| c s1 IH]; simpl; [reflexivity | rewrite IH; reflexivity]. Qed.

Lemma prefix_nil (s : string) : String.prefix EmptyString s = true.
Proof. destruct s; reflexivity. Qed.

Lemma prefix_app (s1 s2 : string) : String.prefix s1 (s1 +:+ s2) = true.
Proof.
  induction s1 as [| c s1 IH]; [apply prefix_nil |].
  change (String c s1 +:+ s2) with (String c (s1 +:+ s2)). cbn [String.prefix].
  destruct (ascii_dec c c); [exact IH | congruence].
Qed.

Lemma str_contains_here (pattern s : string) :
  String.prefix pattern s = true -> str_contains pattern s = true.
Proof. intros H. destruct s; cbn [str_contains]; now rewrite H. Qed.

Lemma str_contains_app (pattern s1 s2 : string) :
  str_contains pattern (s1 +:+ pattern +:+ s2) = true.
Proof.
  induction s1 as [| c s1 IH].
  - change (str_contains pattern (pattern +:+ s2) = true).
    apply str_contains_here, prefix_app.
  - change (String c s1 +:+ pattern +:+ s2) with (String c (s1 +:+ pattern +:+ s2)).
    cbn [str_contains]. rewrite IH. apply orb_true_r.
Qed.

(** X14.  A password that contains "password", "123", "qwerty" or
    "admin" anywhere, in any mix of upper and lower case, is never
    accepted, whatever else it holds. *)
Theorem banned_pattern_any_case (self : LoginSystem) (before word after pattern : string) :
  In pattern banned_patterns -> lower word = pattern ->
  fst (_validate_password_strength self (before +:+ word +:+ after)) = false.
Proof.
  intros Hin Hword. set (password := before +:+ word +:+ after).
  assert (Hex : existsb (fun pat => str_contains pat (lower password))
                  ["password"; "123"; "qwerty"; "admin"] = true).
  { apply existsb_exists. exists pattern. split; [exact Hin |].
    unfold password. now rewrite !lower_app, Hword, str_contains_app. }
  unfold _validate_password_strength.
  destruct (Z.of_nat (String.length password) <? min_password_length self);
    [reflexivity |].
  destruct (re_search_class (in_range "A" "Z") password); [| reflexivity].
  destruct (re_search_class (in_range "a" "z") password); [| reflexivity].
  destruct (re_search_class (in_range "0" "9") password); [| reflexivity].
  destruct (re_search_class is_special password); [| reflexivity].
  cbn [negb]. now rewrite Hex.
Qed.

Lemma re_match_username_cons (c : ascii) (rest : string) :
  re_match_username (String c rest)
  = username_char c &&
    match rest with
    | EmptyString => true
    | String c' EmptyString => Ascii.eqb c' newline || re_match_username rest
    | _ => re_match_username rest
    end.
Proof. reflexivity. Qed.

Lemma re_match_username_intro (body : string) :
  body <> EmptyString -> all_chars username_char body = true ->
  re_match_username body = true /\ re_match_username (body +:+ nl) = true.
Proof.
  induction body as [| c body IH]; [congruence |].
  intros _ Hall. cbn [all_chars] in Hall. apply andb_prop in Hall as [Hc Hall].
  change (String c body +:+ nl) with (String c (body +:+ nl)).
  rewrite !re_match_username_cons, Hc. cbn [andb].
  destruct body as [| c' body'].
  - split; reflexivity.
  - destruct (IH ltac:(discriminate) Hall) as [IH1 IH2].
    change (String c' body' +:+ nl) with (String c' (body' +:+ nl)) in *.
    split.
    + destruct body'; [now rewrite IH1, orb_true_r | exact IH1].
    + destruct (body' +:+ nl) eqn:E; [destruct body'; discriminate | exact IH2].
Qed.

(** X15.  The usernames [register] lets through its pattern check are
    the non-empty strings of letters, digits, underscores and hyphens,
    and those same strings followed by one newline: [$] in the pattern
    also matches just before a final newline. *)
Theorem re_match_username_shape (s : string) :
  re_match_username s = true <-> username_shape s.
Proof.
  split.
  - induction s as [| c rest IH]; [discriminate |].
    cbn [re_match_username]. intros H. apply andb_prop in H as [Hc H].
    destruct rest as [| c' rest'].
    + exists (String c EmptyString). cbn. rewrite Hc. auto.
    + assert (Hrest : (rest' = EmptyString /\ c' = newline) \/
                      re_match_username (String c' rest') = true).
      { destruct rest'; [| now right].
        apply orb_prop in H as [H | H]; [| now right].
        left. split; [reflexivity | now apply Ascii.eqb_eq]. }
      destruct Hrest as [[-> ->] | Hrest].
      * exists (String c EmptyString). cbn. rewrite Hc. split; [discriminate |].
        split; [reflexivity |]. now right.
      * destruct (IH Hrest) as (body & Hne & Hall & Hs).
        exists (String c body). split; [discriminate |].
        cbn [all_chars]. rewrite Hc, Hall. split; [reflexivity |].
        destruct Hs as [-> | ->]; [now left | now right].
  - intros (body & Hne & Hall & [-> | ->]);
      now apply re_match_username_intro.
Qed.

(** ** Long passwords *)

Lemma bcrypt_key_long (p k : string) :
  (72 <= length (encode_utf8 p))%nat -> bcrypt_key p k = firstn 72 (encode_utf8 p).
Proof.
  intros Hlen. unfold bcrypt_key. rewrite encode_utf8_app, firstn_app.
  replace (72 - length (encode_utf8 p))%nat with 0%nat by lia.
  now rewrite firstn_O, app_nil_r.
Qed.

(** X16.  For a password whose encoding has 72 bytes or more the pepper
    plays no part: a hash issued under one pepper verifies under every
    other pepper. *)
Theorem long_password_ignores_pepper
    (eks : N -> bytes -> bytes -> bytes) (urandom : nat -> N)
    (s1 s2 : LoginSystem) (p : string) (w w' : world) :
  (72 <= length (encode_utf8 p))%nat ->
  exists (h : bytes) (w1 w2 : world),
    _hash_password eks urandom s1 p w = (w1, Ok h) /\
    _verify_password eks s2 p h w' = (w2, Ok true).
Proof.
  intros Hlen. eexists _, _, _. split; [apply _hash_password_eq |].
  rewrite _verify_password_hash_string by apply gensalt_salt_ok.
  rewrite !bcrypt_key_long by exact Hlen. now rewrite bool_decide_eq_true_2.
Qed.

(** ** The console loop *)

Section ConsoleProperties.

Context (eks : N -> bytes -> bytes -> bytes) (urandom : nat -> N)
        (datetime_now current_timestamp : nat -> Z)
        (environ : string -> option string).

Local Abbreviation round' := (round eks urandom datetime_now current_timestamp).
Local Abbreviation main_loop' := (main_loop eks urandom datetime_now current_timestamp).

Lemma round_at_end_of_input (self : LoginSystem) (out : list string) (w : world) :
  round' self (mk_console [] out) w
  = (true,
     mk_console [] (out ++ menu_texts
                        ++ [nl +:+ "An error occurred. Please try again." +:+ nl]),
     w).
Proof.
  unfold round, input, menu, handled, print, write. cbn [stdin stdout].
  do 2 f_equal. f_equal. rewrite <- !List.app_assoc. reflexivity.
Qed.

Lemma main_loop_at_end_of_input (self : LoginSystem) (fuel : nat)
    (out : list string) (w : world) :
  main_loop' fuel self (mk_console [] out) w
  = (false,
     mk_console []
       (out ++ concat (repeat (menu_texts
                               ++ [nl +:+ "An error occurred. Please try again." +:+ nl])
                              fuel)),
     w).
Proof.
  revert out. induction fuel as [| fuel IH]; intros out.
  - cbn. now rewrite app_nil_r.
  - cbn [main_loop]. rewrite round_at_end_of_input, IH.
    cbn [repeat concat]. now rewrite <- !List.app_assoc.
Qed.

(** X17.  Started on an exhausted standard input, [main] never leaves
    its loop: however many rounds are run, it has not stopped, each round
    has written the menu, the prompt and "An error occurred. Please try
    again.", and nothing but the one random draw of the constructor has
    happened to the world. *)
Theorem main_at_end_of_input (fuel : nat) (out : list string) (w : world) :
  main eks urandom datetime_now current_timestamp environ fuel (mk_console [] out) w
  = (false,
     mk_console []
       (out ++ concat (repeat (menu_texts
                               ++ [nl +:+ "An error occurred. Please try again." +:+ nl])
                              fuel)),
     drawn w).
Proof. unfold main. rewrite __init___eq. apply main_loop_at_end_of_input. Qed.

Ltac console_step :=
  unfold round, credentials, input, menu, handled, print, write;
  cbn [stdin stdout fst snd].

(** X18.  A round ends the loop exactly when the line read as the choice
    is "3" once stripped of surrounding white space; [main] then writes
    "Goodbye!" and stops, with the world and the rest of the input
    untouched. *)
Theorem loop_left_only_by_choice_3 (self : LoginSystem) (c : console) (w : world) :
  (fst (fst (round' self c w)) = false <->
   exists (line : string) (rest : list keyboard),
     stdin c = Line line :: rest /\ strip line = "3") /\
  (forall (line : string) (rest : list keyboard) (fuel : nat),
     stdin c = Line line :: rest -> strip line = "3" ->
     main_loop' (S fuel) self c w
     = (true,
        mk_console rest (stdout c ++ menu_texts ++ [nl +:+ "Goodbye!" +:+ nl]),
        w)).
Proof.
  destruct c as [keys out]. cbn [stdin stdout].
  split; [split |].
  - destruct keys as [| [line |] rest]; console_step; [discriminate | | discriminate].
    destruct (String.eqb (strip line) "1") eqn:E1.
    { destruct rest as [| [l1 |] [| [l2 |] rest']]; cbn [stdin stdout];
        try discriminate.
      match goal with
      | |- context [register ?a1 ?a2 ?a3 ?a4 ?a5 ?a6 ?a7] =>
          destruct (register a1 a2 a3 a4 a5 a6 a7) as [w' [[success message] | e]]
      end; discriminate. }
    destruct (String.eqb (strip line) "2") eqn:E2.
    { destruct rest as [| [l1 |] [| [l2 |] rest']]; cbn [stdin stdout];
        try discriminate.
      match goal with
      | |- context [login ?a1 ?a2 ?a3 ?a4 ?a5 ?a6 ?a7 ?a8] =>
          destruct (login a1 a2 a3 a4 a5 a6 a7 a8) as [w' [[success message] | e]]
      end; discriminate. }
    destruct (String.eqb (strip line) "3") eqn:E3; [| discriminate].
    intros _. exists line, rest. split; [reflexivity | now apply String.eqb_eq].
  - intros (line & rest & -> & H3). console_step. rewrite H3. reflexivity.
  - intros line rest fuel -> H3. cbn [main_loop]. console_step. rewrite H3.
    cbn [String.eqb Ascii.eqb Bool.eqb]. do 2 f_equal. f_equal.
    rewrite <- !List.app_assoc. reflexivity.
Qed.

(** X19.  [main] registers and logs in with the stripped lines: in a
    round whose choice is 1 (or 2) and that reads two more lines, the
    world becomes the one [register] (or [login]) leaves for the stripped
    username and password, the answer is written, followed by a welcome
    after a successful login, and the loop goes on with the remaining
    input. *)
Theorem round_strips_credentials (self : LoginSystem) (choice u p : string)
    (rest : list keyboard) (out : list string) (w w' : world) (success : bool) :
  let c := mk_console (Line choice :: Line u :: Line p :: rest) out in
  let prompts := menu_texts ++ ["Enter username: "; "Enter password: "] in
  (forall message : string,
     strip choice = "1" ->
     register eks urandom current_timestamp self (strip u) (strip p) w
     = (w', Ok (success, message)) ->
     round' self c w
     = (true, mk_console rest (out ++ prompts ++ [nl +:+ message +:+ nl]), w')) /\
  (forall message : option string,
     strip choice = "2" ->
     login eks urandom datetime_now current_timestamp self (strip u) (strip p) w
     = (w', Ok (success, message)) ->
     round' self c w
     = (true,
        mk_console rest
          (out ++ prompts ++ [nl +:+ show message +:+ nl]
               ++ if success then [("Welcome, " +:+ strip u +:+ "!") +:+ nl] else []),
        w')).
Proof.
  intros c prompts. split; intros message Hchoice Hcall; subst c prompts.
  - console_step. rewrite Hchoice. cbn [String.eqb Ascii.eqb Bool.eqb stdin stdout].
    rewrite Hcall. do 2 f_equal. f_equal. rewrite <- !List.app_assoc. reflexivity.
  - console_step. rewrite Hchoice. cbn [String.eqb Ascii.eqb Bool.eqb stdin stdout].
    rewrite Hcall.
    destruct success; cbn [stdin stdout]; do 2 f_equal; f_equal;
      rewrite <- !List.app_assoc; reflexivity.
Qed.

(** X20.  A round changes the world only by a registration or a login:
    whenever the world after a round differs from the one before, the
    round read a choice of 1 or 2 and two more lines.  End of input, an
    interrupt at any prompt, an unknown choice and the exit all leave the
    accounts alone. *)
Theorem round_changes_world_only_with_credentials (self : LoginSystem) (c : console)
    (w : world) :
  snd (round' self c w) <> w ->
  exists (choice u p : string) (rest : list keyboard),
    stdin c = Line choice :: Line u :: Line p :: rest /\
    (strip choice = "1" \/ strip choice = "2").
Proof.
  destruct c as [keys out]. cbn [stdin stdout].
  destruct keys as [| [line |] rest]; console_step; [congruence | | congruence].
  destruct (String.eqb (strip line) "1") eqn:E1.
  { destruct rest as [| [l1 |] [| [l2 |] rest']]; cbn [stdin stdout snd];
      try congruence.
    intros _. exists line, l1, l2, rest'. split; [reflexivity |].
    left. now apply String.eqb_eq. }
  destruct (String.eqb (strip line) "2") eqn:E2.
  { destruct rest as [| [l1 |] [| [l2 |] rest']]; cbn [stdin stdout snd];
      try congruence.
    intros _. exists line, l1, l2, rest'. split; [reflexivity |].
    right. now apply String.eqb_eq. }
  destruct (String.eqb (strip line) "3"); cbn [snd]; congruence.
Qed.

End ConsoleProperties.

(** * The further properties on a concrete run *)

Lemma world_two_failures_alice :
  db world_two_failures !! "alice" = Some row_two_failures.
Proof. vm_compute. reflexivity. Defined.

(** X2 on the run: after two failures alice's right password logs her in
    and clears the count. *)
Lemma login_success_resets_witness :
  exists (w' : world) (row' : user),
    login0 "alice" "Str0ng!Passw0rd" world_two_failures
    = (w', Ok (true, Some "Login successful")) /\
    db w' !! "alice" = Some row' /\
    failed_attempts row' = 0 /\ locked_until row' = None.
Proof.
  destruct (login_success_resets eks_id urandom_count clock_seconds clock_seconds
              system0 "alice" "Str0ng!Passw0rd" world_two_failures row_two_failures
              world_two_failures_alice eq_refl eq_refl)
    as (w' & row' & H1 & H2 & H3 & H4 & _).
  exists w', row'. auto.
Defined.

(** X3 on the run: two logins on the locked account, one with the right
    password, made between 4 s and 7 s. *)
Lemma lockout_resists_guessing_witness :
  let w := attempts eks_id urandom_count clock_seconds clock_seconds system0 "alice"
             ["Str0ng!Passw0rd"; "guess"] world_locked in
  db w = db world_locked /\ work w = work world_locked /\ ticks w = 8%nat.
Proof.
  apply (lockout_resists_guessing eks_id urandom_count clock_seconds clock_seconds
           system0 "alice" ["Str0ng!Passw0rd"; "guess"] world_locked row_locked
           903000000 world_locked_alice eq_refl).
  intros n Hn. change (ticks world_locked) with 4%nat in Hn. cbn in Hn.
  unfold clock_seconds. lia.
Defined.

(** X5 on the run: alice's registration in the empty table. *)
Lemma register_success_witness :
  exists (w' : world) (row : user),
    register eks_id urandom_count clock_seconds system0 "alice" "Str0ng!Passw0rd" world0
    = (w', Ok (true, "Registration successful")) /\
    db w' = <["alice" := row]> (db world0) /\
    failed_attempts row = 0 /\ locked_until row = None /\
    hash_cost (password_hash row) = Some 12%N /\
    password_matches eks_id system0 "Str0ng!Passw0rd" (password_hash row) = true /\
    work w' = 12%N :: work world0.
Proof.
  apply (register_success eks_id urandom_count clock_seconds system0
           "alice" "Str0ng!Passw0rd" world0).
  - vm_compute. lia.
  - reflexivity.
  - vm_compute. reflexivity.
  - reflexivity.
Defined.

(** X6 on the run: a second registration as alice. *)
Lemma register_duplicate_witness :
  exists w' : world,
    register eks_id urandom_count clock_seconds system0 "alice" "An0ther!Phrase#"
      world_registered
    = (w', Ok (false, "Username already exists")) /\
    db w' = db world_registered /\ work w' = 12%N :: work world_registered.
Proof.
  apply (register_duplicate eks_id urandom_count clock_seconds system0
           "alice" "An0ther!Phrase#" world_registered row_registered).
  - vm_compute. lia.
  - reflexivity.
  - vm_compute. reflexivity.
  - exact world_registered_alice.
Defined.

(** X7 on the run: a username of two characters. *)
Lemma register_rejection_has_no_effect_witness :
  exists message : string,
    register eks_id urandom_count clock_seconds system0 "al" "Str0ng!Passw0rd" world0
    = (world0, Ok (false, message)).
Proof.
  apply (register_rejection_has_no_effect eks_id urandom_count clock_seconds system0
           "al" "Str0ng!Passw0rd" world0).
  left. vm_compute. lia.
Defined.

(** X8 on the run: alice registers and logs in. *)
Lemma register_then_login_witness :
  exists (w1 w2 : world) (row : user),
    register eks_id urandom_count clock_seconds system0 "alice" "Str0ng!Passw0rd" world0
    = (w1, Ok (true, "Registration successful")) /\
    login0 "alice" "Str0ng!Passw0rd" w1 = (w2, Ok (true, Some "Login successful")) /\
    db w2 !! "alice" = Some row /\ failed_attempts row = 0 /\ locked_until row = None.
Proof.
  apply (register_then_login eks_id urandom_count clock_seconds clock_seconds system0
           "alice" "Str0ng!Passw0rd" world0).
  - vm_compute. lia.
  - reflexivity.
  - vm_compute. reflexivity.
  - reflexivity.
Defined.

(** X9 on the run: a failed login as alice leaves the record of bob_1. *)
Lemma operations_touch_one_account_witness :
  is_Some (db world_two_users !! "bob_1") /\
  db (perform eks_id urandom_count clock_seconds clock_seconds system0
        (Login "alice" "wrong1") world_two_users) !! "bob_1"
  = db world_two_users !! "bob_1".
Proof.
  split; [vm_compute; eexists; reflexivity |].
  apply (operations_touch_one_account eks_id urandom_count clock_seconds clock_seconds
           system0 (Login "alice" "wrong1") world_two_users "bob_1").
  cbn. discriminate.
Defined.

(** X10 on the run: a failed login as alice keeps her hash. *)
Lemma operations_keep_hash_witness :
  exists row' : user,
    db (perform eks_id urandom_count clock_seconds clock_seconds system0
          (Login "alice" "wrong1") world_registered) !! "alice" = Some row' /\
    password_hash row' = alice_hash.
Proof.
  exact (operations_keep_hash eks_id urandom_count clock_seconds clock_seconds
           system0 (Login "alice" "wrong1") world_registered "alice" row_registered
           world_registered_alice).
Defined.

(** X11 on the run: alice's stored hash has cost 12. *)
Lemma stored_hashes_cost_12_witness : hash_cost alice_hash = Some 12%N.
Proof.
  exact (stored_hashes_cost_12 eks_id urandom_count clock_seconds clock_seconds
           system0 world_two_failures reachable_two_failures
           "alice" row_two_failures world_two_failures_alice).
Defined.

(** X12 on the run: at 1000 s the check resets alice's expired lock; a
    second check finds nothing to do. *)
Lemma admission_check_idempotent_witness :
  exists w' : world,
    _is_account_locked clock_seconds system0 "alice" world_later
    = (w', Ok (false, None)) /\
    _is_account_locked clock_seconds system0 "alice" w' = (w', Ok (false, None)).
Proof.
  assert (Hfirst : _is_account_locked clock_seconds system0 "alice" world_later
                   = (with_db (alter reset_row "alice" (db world_later))
                        (ticked world_later), Ok (false, None))).
  { apply (_is_account_locked_expired clock_seconds system0 "alice" world_later
             row_locked 903000000 world_locked_alice eq_refl).
    vm_compute. discriminate. }
  eexists. split; [exact Hfirst |].
  exact (admission_check_idempotent clock_seconds system0 "alice" world_later _ Hfirst).
Defined.

(** X14 on an example: "PassWord" in the middle of an otherwise strong
    password. *)
Lemma banned_pattern_any_case_witness :
  fst (_validate_password_strength system0 ("Str0ng!" +:+ "PassWord" +:+ "#2024x"))
  = false.
Proof.
  apply (banned_pattern_any_case system0 "Str0ng!" "PassWord" "#2024x" "password").
  - left. reflexivity.
  - reflexivity.
Defined.

(** X16 on an example: a password of 73 bytes hashed under one pepper
    and verified under another. *)
Lemma long_password_ignores_pepper_witness :
  pepper system0 <> pepper system1 /\
  exists (h : bytes) (w1 w2 : world),
    _hash_password eks_id urandom_count system0 long_password_x world0 = (w1, Ok h) /\
    _verify_password eks_id system1 long_password_x h world0 = (w2, Ok true).
Proof.
  split; [discriminate |].
  apply (long_password_ignores_pepper eks_id urandom_count system0 system1
           long_password_x world0 world0).
  vm_compute. lia.
Defined.

Lemma console0_changes_world :
  snd (round eks_id urandom_count clock_seconds clock_seconds system0 console0 world0)
  <> world0.
Proof. intros H. apply (f_equal draws) in H. vm_compute in H. discriminate. Defined.

(** X20 on an example: a round that registers alice changes the world,
    and it did read a choice of 1 and two lines. *)
Lemma round_changes_world_only_with_credentials_witness :
  exists (choice u p : string) (rest : list keyboard),
    stdin console0 = Line choice :: Line u :: Line p :: rest /\
    (strip choice = "1" \/ strip choice = "2").
Proof.
  exact (round_changes_world_only_with_credentials eks_id urandom_count clock_seconds
           clock_seconds system0 console0 world0 console0_changes_world).
Defined.
